(** * A shallow embedding of the chat page ([src/app/page.tsx])

    The page component keeps a conversation ([messages]), sends the user's
    text (and the text of an attached PDF) to a streaming completion
    endpoint, and folds the streamed text fragments into one assistant
    message.  This file embeds the handler [handleSendMessage], the PDF
    extractor [parsePdf] and the request history [chatHistory] as Rocq
    functions and proves the properties of the specification about them.

    Conventions.
    - A JavaScript string is a Rocq [string]; a character is a code unit
      below 256.
    - An awaited promise is its settled result: [inl] a thrown value or
      [inr] the value it resolves to.
    - Everything the platform supplies (JSON.parse, crypto.randomUUID,
      fetch, FileReader, pdf.js) is a field of the environment [Env].
    - A state setter called with an updater function is applied at the
      call, in call order, and its updater runs once, there.  React may run
      an updater later than the call (the updaters of lines 220-224 read
      the loop variables when they run, the one of line 237 draws its id
      when it runs) and runs it twice in development under StrictMode;
      neither is modelled, and what is proved about ids is proved for this
      order of evaluation.
    - A handler is a closure of the render that created it: it reads
      [input], [file], [messages] and [isLoading] as that render had them,
      not as the component state is when it is called.
    - console.log and console.error have no effect on the component state
      and are left out. *)

From Stdlib Require Import String Ascii List Bool Arith Lia.
From Stdlib Require Import Floats.SpecFloat.
From Stdlib Require Import Numbers.DecimalString Numbers.DecimalNat.
Import ListNotations.

Open Scope list_scope.
Open Scope string_scope.

(** ** JavaScript strings *)

Module JS.

Definition LF : ascii := "010"%char.

(** WhiteSpace and LineTerminator code units below 256: TAB, LF, VT, FF,
    CR, SP and NBSP. *)
Definition isWhiteSpace (c : ascii) : bool :=
  let n := nat_of_ascii c in
  Nat.eqb n 9 || Nat.eqb n 10 || Nat.eqb n 11 || Nat.eqb n 12 || Nat.eqb n 13
  || Nat.eqb n 32 || Nat.eqb n 160.

Fixpoint trimStart (s : string) : string :=
  match s with
  | EmptyString => EmptyString
  | String c s' => if isWhiteSpace c then trimStart s' else s
  end.

Fixpoint trimEnd (s : string) : string :=
  match s with
  | EmptyString => EmptyString
  | String c s' =>
      match trimEnd s' with
      | EmptyString => if isWhiteSpace c then EmptyString else String c EmptyString
      | t => String c t
      end
  end.

(** [s.trim()] *)
Definition trim (s : string) : string := trimEnd (trimStart s).

(** [s.startsWith(p)] *)
Definition startsWith (s p : string) : bool := String.prefix p s.

(** [s.substring(n)]: the string without its first [n] code units. *)
Fixpoint substring_from (n : nat) (s : string) : string :=
  match n, s with
  | O, _ => s
  | S n', String _ s' => substring_from n' s'
  | S _, EmptyString => EmptyString
  end.

(** [s.split('\n')]: never empty; the last element is what follows the
    last line feed. *)
Fixpoint split_LF (s : string) : list string :=
  match s with
  | EmptyString => [EmptyString]
  | String c s' =>
      if Ascii.eqb c LF then EmptyString :: split_LF s'
      else match split_LF s' with
           | l :: ls => String c l :: ls
           | [] => [String c EmptyString]
           end
  end.

(** [items.join(sep)] on an array of strings. *)
Definition join (sep : string) (items : list string) : string :=
  String.concat sep items.

(** A string used as a condition: every string but the empty one is
    truthy. *)
Definition truthy_string (s : string) : bool :=
  match s with EmptyString => false | _ => true end.

(** [a || b] on strings. *)
Definition or_string (a b : string) : string :=
  if truthy_string a then a else b.

(** A non-negative integer in a template literal. *)
Definition nat_toString (n : nat) : string :=
  NilEmpty.string_of_uint (Nat.to_uint n).

(** *** Values produced by JSON.parse *)

Set Warnings "-register-all".

Inductive Value : Type :=
| Null
| Bool (b : bool)
| Num (x : spec_float)
| Str (s : string)
| Arr (items : list Value)
| Obj (fields : list (string * Value)).

(** A value thrown or a rejection reason.  The handler looks at two things
    only: whether it is an instance of Error, and then its message. *)
Inductive Thrown : Type :=
| Error (message : string)
| NotAnError.

(** The settled result of an awaited promise, or of an expression that
    may throw. *)
Definition Result (A : Type) : Type := (Thrown + A)%type.

Fixpoint lookup (k : string) (fields : list (string * Value)) : option Value :=
  match fields with
  | [] => None
  | (k', v) :: rest => if String.eqb k k' then Some v else lookup k rest
  end.

(** [v.k] for a value [v] that is not null, [k] one of the member names
    the page reads (candidates, content, parts, text, error, message):
    only an object can have such a member; [None] is undefined. *)
Definition member (v : Value) (k : string) : option Value :=
  match v with
  | Obj fields => lookup k fields
  | _ => None
  end.

(** [v[0]] for a value [v] that is not null. *)
Definition index0 (v : Value) : option Value :=
  match v with
  | Arr items => hd_error items
  | Obj fields => lookup "0" fields
  | Str (String c _) => Some (Str (String c EmptyString))
  | _ => None
  end.

(** [o?.k] and [o?.[0]]: undefined when [o] is undefined or null. *)
Definition opt_member (o : option Value) (k : string) : option Value :=
  match o with
  | None | Some Null => None
  | Some v => member v k
  end.

Definition opt_index0 (o : option Value) : option Value :=
  match o with
  | None | Some Null => None
  | Some v => index0 v
  end.

(** A value used as a condition. *)
Definition truthy (o : option Value) : bool :=
  match o with
  | None | Some Null => false
  | Some (Bool b) => b
  | Some (Num (S754_zero _)) | Some (Num S754_nan) => false
  | Some (Num _) => true
  | Some (Str s) => truthy_string s
  | Some (Arr _) | Some (Obj _) => true
  end.

(** [a || b] on values. *)
Definition or_value (a : option Value) (b : Value) : Value :=
  match a with
  | Some v => if truthy a then v else b
  | None => b
  end.

Section ToString.

(** Number::toString, supplied by the platform. *)
Variable Number_toString : spec_float -> string.

(** The string a value turns into when it is concatenated to a string or
    spliced into a template literal. *)
Fixpoint ToString (v : Value) : string :=
  match v with
  | Null => "null"
  | Bool true => "true"
  | Bool false => "false"
  | Num x => Number_toString x
  | Str s => s
  | Arr items =>
      join "," (map (fun i => match i with Null => EmptyString | _ => ToString i end) items)
  | Obj _ => "[object Object]"
  end.

End ToString.

End JS.

(** ** Data model of the page *)

(** [interface Message] *)
Inductive Role : Type := user | assistant.

Record Message : Type := {
  id : string;
  role : Role;
  content : string
}.

(** [interface ApiContent] *)
Module Api.

Inductive Role : Type := user | model.

Record Part : Type := { text : string }.

Record Content : Type := {
  role : Role;
  parts : list Part
}.

End Api.

(** What the page reads of a [File]. *)
Record File : Type := {
  name : string;
  type : string
}.

(** *** pdf.js *)

Record TextItem : Type := { str : string }.

Record TextContent : Type := { items : list TextItem }.

Record PDFPageProxy : Type := { getTextContent : JS.Result TextContent }.

Record PDFDocumentProxy : Type := {
  numPages : nat;
  getPage : nat -> JS.Result PDFPageProxy
}.

Record PdfJsLib : Type := {
  getDocument : list Byte.byte -> JS.Result PDFDocumentProxy
}.

(** How a FileReader finishes: [onload] with [event.target.result], or
    [onerror]. *)
Inductive FileReaderEvent : Type :=
| onload (result : option (list Byte.byte))
| onerror.

(** *** fetch *)

(** What successive [reader.read()] calls settle to: chunks
    ([done: false], here already passed through [decoder.decode], which
    is called afresh on every chunk), then the end of the stream
    ([done: true]) or a rejection. *)
Inductive ReadableStream : Type :=
| done
| chunk (value : string) (rest : ReadableStream)
| read_error (err : JS.Thrown).

Record Response : Type := {
  ok : bool;
  status : nat;
  body : option ReadableStream;
  json : JS.Result JS.Value
}.

(** *** The platform *)

Record Env : Type := {
  (** [JSON.parse], which throws on malformed text *)
  JSON_parse : string -> JS.Result JS.Value;
  Number_toString : spec_float -> string;
  (** the id that the n-th call of [crypto.randomUUID] returns *)
  randomUUID : nat -> string;
  (** [window.pdfjsLib], absent until the script has loaded *)
  pdfjsLib : option PdfJsLib;
  readAsArrayBuffer : File -> FileReaderEvent;
  (** [fetch(apiUrl, ...)] as a function of the [contents] it posts *)
  fetch : list Api.Content -> JS.Result Response
}.

(** *** The component state: the five [useState] cells *)

Record State : Type := {
  messages : list Message;
  input : string;
  file : option File;
  isLoading : bool;
  error : option string
}.

(** The initial state of [ChatPage]. *)
Definition initialState : State :=
  {| messages :=
       [ {| id := "1"; role := assistant;
            content := "Hello! I'm a friendly AI assistant. How can I help you today? You can also upload a PDF." |} ];
     input := EmptyString;
     file := None;
     isLoading := false;
     error := None |}.

(** The component state together with what the handler does to the
    outside: how many ids it has drawn, the request bodies it has posted,
    and the component state at each [await], where the handler is
    suspended and other events can run. *)
Record Sys : Type := {
  ui : State;
  uuid_calls : nat;
  posted : list (list Api.Content);
  suspended : list State
}.

Definition start (st : State) : Sys :=
  {| ui := st; uuid_calls := 0; posted := []; suspended := [] |}.

(** ** The handler monad: state, exceptions and suspension points *)

Definition M (A : Type) : Type := Sys -> Sys * JS.Result A.

Definition ret {A : Type} (a : A) : M A := fun s => (s, inr a).

Definition throw {A : Type} (e : JS.Thrown) : M A := fun s => (s, inl e).

Definition bind {A B : Type} (m : M A) (k : A -> M B) : M B :=
  fun s =>
    match m s with
    | (s', inr a) => k a s'
    | (s', inl e) => (s', inl e)
    end.

Declare Scope handler_scope.
Delimit Scope handler_scope with handler.
Bind Scope handler_scope with M.

Notation "x <- m ;; k" := (bind m (fun x => k))
  (at level 61, m at next level, right associativity) : handler_scope.
Notation "m ;; k" := (bind m (fun _ => k))
  (at level 61, right associativity) : handler_scope.

Open Scope handler_scope.

(** [try { m } catch (err) { h err }] *)
Definition try_catch {A : Type} (m : M A) (h : JS.Thrown -> M A) : M A :=
  fun s =>
    match m s with
    | (s', inl e) => h e s'
    | (s', inr a) => (s', inr a)
    end.

(** [try { m } finally { f }] *)
Definition try_finally {A : Type} (m : M A) (f : M unit) : M A :=
  fun s =>
    match m s with
    | (s', r) =>
        match f s' with
        | (s'', inr _) => (s'', r)
        | (s'', inl e) => (s'', inl e)
        end
    end.

(** [await p]: the handler is suspended with the component state as it is,
    then resumes with what [p] settled to. *)
Definition await {A : Type} (p : JS.Result A) : M A :=
  fun s =>
    ({| ui := ui s; uuid_calls := uuid_calls s; posted := posted s;
        suspended := (suspended s ++ [ui s])%list |}, p).

Definition setState (f : State -> State) : M unit :=
  fun s =>
    ({| ui := f (ui s); uuid_calls := uuid_calls s; posted := posted s;
        suspended := suspended s |}, inr tt).

Definition setMessages (f : list Message -> list Message) : M unit :=
  setState (fun st =>
    {| messages := f (messages st); input := input st; file := file st;
       isLoading := isLoading st; error := error st |}).

Definition setInput (v : string) : M unit :=
  setState (fun st =>
    {| messages := messages st; input := v; file := file st;
       isLoading := isLoading st; error := error st |}).

Definition setFile (v : option File) : M unit :=
  setState (fun st =>
    {| messages := messages st; input := input st; file := v;
       isLoading := isLoading st; error := error st |}).

Definition setIsLoading (v : bool) : M unit :=
  setState (fun st =>
    {| messages := messages st; input := input st; file := file st;
       isLoading := v; error := error st |}).

Definition setError (v : option string) : M unit :=
  setState (fun st =>
    {| messages := messages st; input := input st; file := file st;
       isLoading := isLoading st; error := v |}).

(** [err instanceof Error ? err.message : fallback] *)
Definition message_or (err : JS.Thrown) (fallback : string) : string :=
  match err with
  | JS.Error message => message
  | JS.NotAnError => fallback
  end.

(** [file?.name] spliced into a template literal. *)
Definition file_name (f : option File) : string :=
  match f with
  | Some f => name f
  | None => "undefined"
  end.

(** ** The request history (lines 170-179) *)

Definition chatHistory (messages : list Message) (apiRequestText : string)
  : list Api.Content :=
  (map (fun msg =>
         {| Api.role := match role msg with
                        | assistant => Api.model
                        | user => Api.user
                        end;
            Api.parts := [ {| Api.text := content msg |} ] |})
      messages
  ++ [ {| Api.role := Api.user;
          Api.parts := [ {| Api.text := apiRequestText |} ] |} ])%list.

Section Page.

Variable env : Env.

(** [crypto.randomUUID()] *)
Definition crypto_randomUUID : M string :=
  fun s =>
    ({| ui := ui s; uuid_calls := S (uuid_calls s); posted := posted s;
        suspended := suspended s |}, inr (randomUUID env (uuid_calls s))).

(** [await fetch(apiUrl, { ..., body: JSON.stringify({ contents }) })] *)
Definition await_fetch (contents : list Api.Content) : M Response :=
  fun s =>
    await (fetch env contents)
      {| ui := ui s; uuid_calls := uuid_calls s;
         posted := (posted s ++ [contents])%list; suspended := suspended s |}.

(** ** [parsePdf] (lines 93-121) *)

(** The loop over the pages: [remaining] iterations are left, the next
    one is for page [i]. *)
Fixpoint parsePdf_pages (pdf : PDFDocumentProxy) (remaining i : nat)
  (fullText : string) : JS.Result string :=
  match remaining with
  | O => inr fullText
  | S remaining' =>
      match getPage pdf i with
      | inl err => inl err
      | inr page =>
          match getTextContent page with
          | inl err => inl err
          | inr textContent =>
              let pageText := JS.join " " (map str (items textContent)) in
              parsePdf_pages pdf remaining' (S i)
                (fullText ++ pageText ++ String JS.LF EmptyString)
          end
      end
  end.

Definition parsePdf (pdfFile : File) : JS.Result string :=
  match pdfjsLib env with
  | None => inl (JS.Error "PDF.js library is not loaded yet.")
  | Some lib =>
      match readAsArrayBuffer env pdfFile with
      | onerror => inl JS.NotAnError
      | onload None => inl (JS.Error "Failed to read file.")
      | onload (Some typedArray) =>
          match getDocument lib typedArray with
          | inl err => inl err
          | inr pdf => parsePdf_pages pdf (numPages pdf) 1 EmptyString
          end
      end
  end.

(** ** The response stream (lines 196-233) *)

(** The two locals of the read loop. *)
Record Locals : Type := {
  aiResponseContent : string;
  assistantMessageId : option string
}.

(** [parsed.candidates?.[0]?.content?.parts?.[0]?.text]: the first member
    access is not optional and throws a TypeError on null. *)
Definition textPart_of (parsed : JS.Value) : JS.Result (option JS.Value) :=
  match parsed with
  | JS.Null => inl (JS.Error "Cannot read properties of null (reading 'candidates')")
  | _ =>
      inr (JS.opt_member
             (JS.opt_index0
                (JS.opt_member
                   (JS.opt_member
                      (JS.opt_index0 (JS.member parsed "candidates"))
                      "content")
                   "parts"))
             "text")
  end.

(** The branch [if (!assistantMessageId)] (lines 219-220): a new id is
    drawn and the assistant message is appended under it. *)
Definition start_assistant_message (aiResponseContent' : string) : M Locals :=
  i <- crypto_randomUUID ;;
  setMessages (fun prev =>
    (prev ++ [ {| id := i; role := assistant;
                  content := aiResponseContent' |} ])%list) ;;
  ret {| aiResponseContent := aiResponseContent';
         assistantMessageId := Some i |}.

(** The [else] branch (lines 222-224): every message that has the id gets
    the text accumulated so far as its content. *)
Definition update_assistant_message (i aiResponseContent' : string) : M Locals :=
  setMessages (fun prev =>
    map (fun msg =>
           if String.eqb (id msg) i
           then {| id := id msg; role := role msg;
                   content := aiResponseContent' |}
           else msg)
        prev) ;;
  ret {| aiResponseContent := aiResponseContent';
         assistantMessageId := Some i |}.

(** The body of [if (textPart) { ... }] (lines 217-225).  The id counts
    as missing when it is null or the empty string. *)
Definition apply_textPart (textPart : JS.Value) (l : Locals) : M Locals :=
  let aiResponseContent' :=
    aiResponseContent l ++ JS.ToString (Number_toString env) textPart in
  match assistantMessageId l with
  | Some i =>
      if JS.truthy_string i
      then update_assistant_message i aiResponseContent'
      else start_assistant_message aiResponseContent'
  | None => start_assistant_message aiResponseContent'
  end.

(** The body of [for (const line of lines)] (lines 209-231). *)
Definition process_line (line : string) (l : Locals) : M Locals :=
  if JS.startsWith line "data: " then
    let jsonStr := JS.trim (JS.substring_from 6 line) in
    if JS.truthy_string jsonStr then
      try_catch
        (match JSON_parse env jsonStr with
         | inl err => throw err
         | inr parsed =>
             match textPart_of parsed with
             | inl err => throw err
             | inr textPart =>
                 match textPart with
                 | Some v => if JS.truthy textPart then apply_textPart v l else ret l
                 | None => ret l
                 end
             end
         end)
        (fun _ => ret l)
    else ret l
  else ret l.

Fixpoint process_lines (lines : list string) (l : Locals) : M Locals :=
  match lines with
  | [] => ret l
  | line :: rest => l' <- process_line line l ;; process_lines rest l'
  end.

(** [while (true) { const { done, value } = await reader.read(); ... }] *)
Fixpoint read_loop (reader : ReadableStream) (l : Locals) : M unit :=
  match reader with
  | done => await (inr tt)
  | read_error err => await (inl err)
  | chunk value rest =>
      await (inr tt) ;;
      l' <- process_lines (JS.split_LF value) l ;;
      read_loop rest l'
  end.

(** ** [handleSendMessage] (lines 124-241) *)

(** [input.trim() || `File uploaded: ${file?.name}`] *)
Definition userMessage_content (st : State) : string :=
  JS.or_string (JS.trim (input st)) ("File uploaded: " ++ file_name (file st)).

(** The text sent for the new turn (lines 160-163). *)
Definition apiRequestText (st : State) (pdfText : string) : string :=
  if JS.truthy_string pdfText then
    JS.trim (input st)
    ++ String JS.LF (String JS.LF "--- Content from ") ++ file_name (file st)
    ++ " ---" ++ String JS.LF pdfText
  else JS.trim (input st).

(** [new Error(`API error: ${response.status} - ${errorBody?.error?.message || 'Unknown error'}`)] *)
Definition apiError (response : Response) (errorBody : JS.Value) : JS.Thrown :=
  JS.Error
    ("API error: " ++ JS.nat_toString (status response) ++ " - "
     ++ JS.ToString (Number_toString env)
          (JS.or_value
             (JS.opt_member (JS.opt_member (Some errorBody) "error") "message")
             (JS.Str "Unknown error"))).

(** Lines 191-233: the status check, then the read loop. *)
Definition decode_response (response : Response) : M unit :=
  match ok response, body response with
  | true, Some reader =>
      read_loop reader
        {| aiResponseContent := EmptyString; assistantMessageId := None |}
  | _, _ =>
      errorBody <- await (json response) ;;
      throw (apiError response errorBody)
  end.

(** The [try] block (lines 182-233). *)
Definition request_and_decode (contents : list Api.Content) : M unit :=
  response <- await_fetch contents ;;
  decode_response response.

(** [setMessages((prev) => ...)] with an updater that calls
    [crypto.randomUUID()] itself (line 237): the id is drawn when the
    updater runs, which is at the call here. *)
Definition setMessages_drawing
  (f : string -> list Message -> list Message) : M unit :=
  fun s =>
    setMessages (f (randomUUID env (uuid_calls s)))
      {| ui := ui s; uuid_calls := S (uuid_calls s); posted := posted s;
         suspended := suspended s |}.

(** The [catch] block (lines 234-237). *)
Definition on_failure (err : JS.Thrown) : M unit :=
  let errorMessage := message_or err "An unknown error occurred." in
  setError (Some errorMessage) ;;
  setMessages_drawing (fun i prev =>
    (prev ++ [ {| id := i; role := assistant;
                  content := "Sorry, something went wrong: " ++ errorMessage |} ])%list).

(** Lines 148-240: what follows the extraction.  [st] holds the values the
    handler closed over: the state of the render it belongs to. *)
Definition send (st : State) (pdfText : string) : M unit :=
  i <- crypto_randomUUID ;;
  let userMessage :=
    {| id := i; role := user; content := userMessage_content st |} in
  setMessages (fun prev => (prev ++ [userMessage])%list) ;;
  setInput EmptyString ;;
  setFile None ;;
  try_finally
    (try_catch
       (request_and_decode (chatHistory (messages st) (apiRequestText st pdfText)))
       on_failure)
    (setIsLoading false).

(** The handler is a closure of the render it belongs to: [input], [file],
    [messages] and [isLoading] (lines 46-49) are the values of that
    render, [rendered], whatever the component state has become by the
    time the handler is called.  Only the updaters passed to the setters
    see the current state. *)
Definition handleSendMessage (rendered : State) : M unit :=
  if (String.eqb (JS.trim (input rendered)) EmptyString
      && match file rendered with Some _ => false | None => true end)
     || isLoading rendered
  then ret tt
  else
    setIsLoading true ;;
    setError None ;;
    match file rendered with
    | Some f =>
        r <- try_catch (pdfText <- await (parsePdf f) ;; ret (inr pdfText))
               (fun err => ret (inl err)) ;;
        match r with
        | inl err =>
            setError (Some (message_or err "Failed to parse PDF.")) ;;
            setIsLoading false
        | inr pdfText => send rendered pdfText
        end
    | None => send rendered EmptyString
    end.

(** The component state once a submission made in state [st], through the
    handler of the render of [st], has run to its end. *)
Definition submit (st : State) : State :=
  ui (fst (handleSendMessage st (start st))).

End Page.

(** ** The other handlers of the page *)

(** [handleFileChange] (lines 82-91); [selectedFile] is
    [e.target.files?.[0]], undefined when the chooser is left without a
    file. *)
Definition handleFileChange (selectedFile : option File) : M unit :=
  match selectedFile with
  | Some f =>
      if String.eqb (type f) "application/pdf"
      then setFile selectedFile ;; setError None
      else setError (Some "Please select a valid PDF file.") ;; setFile None
  | None => setError (Some "Please select a valid PDF file.") ;; setFile None
  end.

(** The [disabled] attribute of the Send button (line 293):
    [isLoading || (!input.trim() && !file)]. *)
Definition sendDisabled (st : State) : bool :=
  isLoading st
  || (negb (JS.truthy_string (JS.trim (input st)))
      && match file st with Some _ => false | None => true end).

(** What the user can do to the page while no submission is in flight:
    choose a file (line 291), type into the input (line 292), remove the
    attachment (line 281), submit the form (line 286) on some platform. *)
Inductive Event : Type :=
| file_chosen (selectedFile : option File)
| text_typed (value : string)
| attachment_removed
| form_submitted (env : Env).

(** The component state once the event has been handled to its end. *)
Definition handle (ev : Event) (st : State) : State :=
  match ev with
  | file_chosen selectedFile => ui (fst (handleFileChange selectedFile (start st)))
  | text_typed value => ui (fst (setInput value (start st)))
  | attachment_removed => ui (fst (setFile None (start st)))
  | form_submitted env => submit env st
  end.

Definition run (events : list Event) (st : State) : State :=
  fold_left (fun st ev => handle ev st) events st.

(** ** Describing what the handler does *)

(** *** What a response stream carries *)

Fixpoint concat_strings (l : list string) : string :=
  match l with
  | [] => EmptyString
  | s :: rest => s ++ concat_strings rest
  end.

(** A string without a line feed. *)
Fixpoint one_line (s : string) : bool :=
  match s with
  | EmptyString => true
  | String c s' => negb (Ascii.eqb c JS.LF) && one_line s'
  end.

Section Carried.

Variable env : Env.

(** The text part for which a line reaches the body of [if (textPart)]:
    the conditions of lines 209-216, none if one of them fails or
    something is thrown on the way. *)
Definition line_textPart (line : string) : list JS.Value :=
  if JS.startsWith line "data: " then
    let jsonStr := JS.trim (JS.substring_from 6 line) in
    if JS.truthy_string jsonStr then
      match JSON_parse env jsonStr with
      | inl _ => []
      | inr parsed =>
          match textPart_of parsed with
          | inr (Some v) => if JS.truthy (Some v) then [v] else []
          | _ => []
          end
      end
    else []
  else [].

Definition chunk_textParts (value : string) : list JS.Value :=
  flat_map line_textPart (JS.split_LF value).

Fixpoint stream_textParts (reader : ReadableStream) : list JS.Value :=
  match reader with
  | chunk value rest => (chunk_textParts value ++ stream_textParts rest)%list
  | _ => []
  end.

(** How reading the stream ends. *)
Fixpoint stream_end (reader : ReadableStream) : JS.Result unit :=
  match reader with
  | done => inr tt
  | read_error err => inl err
  | chunk _ rest => stream_end rest
  end.

(** The accumulated text after the text parts [parts]. *)
Definition text_of (parts : list JS.Value) : string :=
  concat_strings (map (JS.ToString (Number_toString env)) parts).

(** The assistant message of a stream once it has delivered [parts]:
    none before the first text part. *)
Definition assistant_turn (i : string) (parts : list JS.Value) : list Message :=
  match parts with
  | [] => []
  | _ => [ {| id := i; role := assistant; content := text_of parts |} ]
  end.

(** The state of the read loop that was entered in [s0] and has applied
    [parts]: the component state, the locals, the whole system. *)
Definition decoder_ui (s0 : Sys) (parts : list JS.Value) : State :=
  {| messages :=
       (messages (ui s0)
        ++ assistant_turn (randomUUID env (uuid_calls s0)) parts)%list;
     input := input (ui s0);
     file := file (ui s0);
     isLoading := isLoading (ui s0);
     error := error (ui s0) |}.

Definition decoder_locals (s0 : Sys) (parts : list JS.Value) : Locals :=
  {| aiResponseContent := text_of parts;
     assistantMessageId :=
       match parts with
       | [] => None
       | _ => Some (randomUUID env (uuid_calls s0))
       end |}.

Definition decoder_sys (s0 : Sys) (seen : list State) (parts : list JS.Value) : Sys :=
  {| ui := decoder_ui s0 parts;
     uuid_calls := match parts with [] => uuid_calls s0 | _ => S (uuid_calls s0) end;
     posted := posted s0;
     suspended := seen |}.

(** The component states in which the read loop is suspended. *)
Fixpoint read_loop_suspended (s0 : Sys) (reader : ReadableStream)
  (parts : list JS.Value) : list State :=
  match reader with
  | chunk value rest =>
      decoder_ui s0 parts
      :: read_loop_suspended s0 rest (parts ++ chunk_textParts value)%list
  | _ => [decoder_ui s0 parts]
  end.

End Carried.

(** An id that can be given to a new message of the store [ms]. *)
Definition fresh_id (i : string) (ms : list Message) : Prop :=
  i <> EmptyString /\ ~ In i (map id ms).

(** *** Streams made of whole lines *)

(** The lines a well-formed event stream is made of. *)
Inductive Line : Type :=
| fragment_record (jsonStr : string) (parsed : JS.Value) (fragment : string)
| metadata_record (jsonStr : string) (parsed : JS.Value)
| malformed_record (jsonStr : string)
| heartbeat (blank : string)
| other_line (line : string).

Definition line_text (l : Line) : string :=
  match l with
  | fragment_record jsonStr _ _ => "data: " ++ jsonStr
  | metadata_record jsonStr _ => "data: " ++ jsonStr
  | malformed_record jsonStr => "data: " ++ jsonStr
  | heartbeat blank => "data: " ++ blank
  | other_line line => line
  end.

(** What makes a line the kind of line it is called. *)
Definition line_wf (env : Env) (l : Line) : Prop :=
  one_line (line_text l) = true /\
  match l with
  | fragment_record jsonStr parsed fragment =>
      JS.trim jsonStr <> EmptyString /\
      JSON_parse env (JS.trim jsonStr) = inr parsed /\
      textPart_of parsed = inr (Some (JS.Str fragment)) /\
      fragment <> EmptyString
  | metadata_record jsonStr parsed =>
      JSON_parse env (JS.trim jsonStr) = inr parsed /\
      match textPart_of parsed with
      | inr textPart => JS.truthy textPart = false
      | inl _ => True
      end
  | malformed_record jsonStr =>
      exists err, JSON_parse env (JS.trim jsonStr) = inl err
  | heartbeat blank => JS.trim blank = EmptyString
  | other_line line => JS.startsWith line "data: " = false
  end.

Definition line_fragment (l : Line) : list string :=
  match l with
  | fragment_record _ _ fragment => [fragment]
  | _ => []
  end.

(** A chunk that carries whole lines, each ended by a line feed. *)
Definition chunk_text (lines : list Line) : string :=
  concat_strings (map (fun l => line_text l ++ String JS.LF EmptyString) lines).

Definition chunk_fragments (lines : list Line) : list string :=
  flat_map line_fragment lines.

(** The stream that delivers the given chunk texts and then ends. *)
Definition stream_of_texts (values : list string) : ReadableStream :=
  fold_right chunk done values.

Definition stream_of (chunks : list (list Line)) : ReadableStream :=
  stream_of_texts (map chunk_text chunks).

Definition stream_fragments (chunks : list (list Line)) : list string :=
  flat_map chunk_fragments chunks.

(** *** Submissions *)

(** The guard of line 126 lets the submission through. *)
Definition accepted (st : State) : Prop :=
  isLoading st = false /\
  (JS.trim (input st) <> EmptyString \/ file st <> None).

(** The outcome of the extraction step (lines 131-146): the empty text
    when no file is attached. *)
Definition extraction (env : Env) (st : State) : JS.Result string :=
  match file st with
  | Some f => parsePdf env f
  | None => inr EmptyString
  end.

(** The message of the user that a submission made in state [st] appends. *)
Definition userMessage (env : Env) (st : State) : Message :=
  {| id := randomUUID env 0; role := user; content := userMessage_content st |}.

(** The string ends with a line feed. *)
Definition ends_with_LF (s : string) : Prop :=
  exists a, s = a ++ String JS.LF EmptyString.

(** The state shown while a submission made in state [st] is busy with
    the attached file. *)
Definition extracting (st : State) : State :=
  {| messages := messages st; input := input st; file := file st;
     isLoading := true; error := None |}.

(** The state shown while the request is under way. *)
Definition awaiting_response (env : Env) (st : State) : State :=
  {| messages := (messages st ++ [userMessage env st])%list;
     input := EmptyString; file := None; isLoading := true; error := None |}.

(** The system when [fetch] has settled. *)
Definition dispatched (env : Env) (st : State) (pdfText : string) : Sys :=
  {| ui := awaiting_response env st;
     uuid_calls := 1;
     posted := [chatHistory (messages st) (apiRequestText st pdfText)];
     suspended :=
       (match file st with Some _ => [extracting st] | None => [] end
        ++ [awaiting_response env st])%list |}.

(** The message that reports a failure. *)
Definition failure_turn (i : string) (err : JS.Thrown) : Message :=
  {| id := i; role := assistant;
     content := "Sorry, something went wrong: "
                ++ message_or err "An unknown error occurred." |}.

(** The state a submission ends in when it fails with [err] before any
    text part has arrived. *)
Definition failed_early (env : Env) (st : State) (err : JS.Thrown) : State :=
  {| messages :=
       (messages st
        ++ [userMessage env st; failure_turn (randomUUID env 1) err])%list;
     input := EmptyString;
     file := None;
     isLoading := false;
     error := Some (message_or err "An unknown error occurred.") |}.

(** *** What decoding leaves alone *)

(** From [s] to [s'] no request was posted, the busy flag did not change,
    and the states shown in between had the same busy flag. *)
Definition steady (s s' : Sys) : Prop :=
  posted s' = posted s /\
  isLoading (ui s') = isLoading (ui s) /\
  exists more,
    suspended s' = (suspended s ++ more)%list /\
    Forall (fun shown => isLoading shown = isLoading (ui s)) more.

Definition keeps {A : Type} (m : M A) : Prop :=
  forall s, steady s (fst (m s)).

(** The two systems differ at most in the states recorded at the
    suspension points. *)
Definition same_but_shown (s s' : Sys) : Prop :=
  ui s = ui s' /\ uuid_calls s = uuid_calls s' /\ posted s = posted s'.

(** *** Pages of a document *)

(** Page [k] of the document can be read and its text items are
    [fragments]. *)
Definition page_yields (pdf : PDFDocumentProxy) (k : nat)
  (fragments : list string) : Prop :=
  exists page textContent,
    getPage pdf k = inr page /\
    getTextContent page = inr textContent /\
    map str (items textContent) = fragments.

(** Page [k] of the document cannot be read: fetching it fails, or
    extracting its text does. *)
Definition page_fails (pdf : PDFDocumentProxy) (k : nat) : Prop :=
  (exists err, getPage pdf k = inl err) \/
  (exists page err, getPage pdf k = inr page /\ getTextContent page = inl err).

(** The text of one page: its fragments joined by single spaces, then a
    line feed. *)
Definition page_text (fragments : list string) : string :=
  JS.join " " fragments ++ String JS.LF EmptyString.

(** *** What a submission does to the store *)

(** The message [m'] stands where [m] stood: same id, same role, and the
    same content unless its id is one drawn at the [n]-th call of
    [crypto.randomUUID] or later. *)
Definition same_slot (env : Env) (n : nat) (m m' : Message) : Prop :=
  id m' = id m /\
  role m' = role m /\
  (content m' = content m \/ exists k, n <= k /\ id m = randomUUID env k).

(** From [s] to [s'] the store has kept its messages in their slots and
    has gained one message for each id drawn, in the order of drawing;
    input, attachment, busy flag and requests posted are as they were. *)
Definition appends (env : Env) (n : nat) (s s' : Sys) : Prop :=
  input (ui s') = input (ui s) /\
  file (ui s') = file (ui s) /\
  isLoading (ui s') = isLoading (ui s) /\
  exists olds added,
    messages (ui s') = (olds ++ added)%list /\
    Forall2 (same_slot env n) (messages (ui s)) olds /\
    map id added = map (randomUUID env) (seq (uuid_calls s) (List.length added)) /\
    uuid_calls s' = uuid_calls s + List.length added.

(** The id of the assistant message, if the loop has one, was drawn at
    the [n]-th call or later. *)
Definition drawn_since (env : Env) (n : nat) (l : Locals) : Prop :=
  match assistantMessageId l with
  | None => True
  | Some i => exists k, n <= k /\ i = randomUUID env k
  end.

(** How decoding a response ends: as the stream does, or with the error
    thrown for a response that is no success with a body. *)
Definition response_result (env : Env) (response : Response) : JS.Result unit :=
  match ok response, body response with
  | true, Some reader => stream_end reader
  | _, _ =>
      inl match json response with
          | inl rejected => rejected
          | inr errorBody => apiError env response errorBody
          end
  end.

(** How the [try] block ends for the posted [contents]. *)
Definition transport_result (env : Env) (contents : list Api.Content)
  : JS.Result unit :=
  match fetch env contents with
  | inl err => inl err
  | inr response => response_result env response
  end.

(** The stream that delivers the given chunk texts and then fails. *)
Definition failing_stream (values : list string) (err : JS.Thrown)
  : ReadableStream :=
  fold_right chunk (read_error err) values.

(** How many ids the read loop can still draw when every id drawn is a
    non-empty string: one while the assistant message has no id. *)
Definition draws_left (l : Locals) : nat :=
  match assistantMessageId l with
  | Some i => if JS.truthy_string i then 0 else 1
  | None => 1
  end.

(** The attached file, if there is one, is declared a PDF document. *)
Definition pdf_only (st : State) : Prop :=
  match file st with
  | Some f => type f = "application/pdf"
  | None => True
  end.

(** A line ended by a carriage return, as in a stream framed with CR LF. *)
Definition CR : ascii := "013"%char.

Definition with_CR (line : string) : string := line ++ String CR EmptyString.

(** ** Sample data *)

Module Sample.

Definition DQ : string := String "034"%char EmptyString.

Definition NL : string := String JS.LF EmptyString.

Definition quoted (s : string) : string := DQ ++ s ++ DQ.

(** The JSON text of a stream event that carries the text [t] (for a [t]
    that needs no escaping), and the value JSON.parse gives for it. *)
Definition event_json (t : string) : string :=
  "{" ++ quoted "candidates" ++ ":[{" ++ quoted "content" ++ ":{"
  ++ quoted "parts" ++ ":[{" ++ quoted "text" ++ ":" ++ quoted t ++ "}]}}]}".

Definition event_value (t : string) : JS.Value :=
  JS.Obj [("candidates",
           JS.Arr [JS.Obj [("content",
                            JS.Obj [("parts",
                                     JS.Arr [JS.Obj [("text", JS.Str t)]])])]])].

(** An event without a text part. *)
Definition usage_json : string := "{" ++ quoted "usageMetadata" ++ ":{}}".

Definition usage_value : JS.Value := JS.Obj [("usageMetadata", JS.Obj [])].

(** An event text cut short. *)
Definition truncated_json : string :=
  "{" ++ quoted "candidates" ++ ":[{" ++ quoted "content".

(** The body of an error response. *)
Definition error_value : JS.Value :=
  JS.Obj [("error", JS.Obj [("message", JS.Str "API key not valid.")])].

(** JSON.parse on the texts used below: it agrees with the real one on
    every text it is given here. *)
Definition parse (s : string) : JS.Result JS.Value :=
  if String.eqb s (event_json "Hel") then inr (event_value "Hel")
  else if String.eqb s (event_json "lo") then inr (event_value "lo")
  else if String.eqb s (event_json "Hello") then inr (event_value "Hello")
  else if String.eqb s usage_json then inr usage_value
  else inl (JS.Error "Unexpected end of JSON input").

Definition two_pages : PDFDocumentProxy :=
  {| numPages := 2;
     getPage := fun i =>
       match i with
       | 1 => inr {| getTextContent :=
                       inr {| items := [ {| str := "Dear" |}; {| str := "reader," |} ] |} |}
       | 2 => inr {| getTextContent := inr {| items := [ {| str := "bye." |} ] |} |}
       | _ => inl (JS.Error "Invalid page request")
       end |}.

(** A document whose second page cannot be read. *)
Definition broken_page : PDFDocumentProxy :=
  {| numPages := 3;
     getPage := fun i =>
       match i with
       | 2 => inr {| getTextContent := inl (JS.Error "Bad page") |}
       | _ => inr {| getTextContent := inr {| items := [ {| str := "text" |} ] |} |}
       end |}.

Definition lib : PdfJsLib :=
  {| getDocument := fun data =>
       match data with
       | [Byte.x01] => inr two_pages
       | [Byte.x02] => inr broken_page
       | _ => inl (JS.Error "Invalid PDF structure.")
       end |}.

Definition letter : File := {| name := "letter.pdf"; type := "application/pdf" |}.

Definition damaged : File := {| name := "damaged.pdf"; type := "application/pdf" |}.

Definition junk : File := {| name := "junk.pdf"; type := "application/pdf" |}.

(** A platform whose [fetch] settles to [outcome]. *)
Definition env (outcome : JS.Result Response) : Env :=
  {| JSON_parse := parse;
     Number_toString := fun _ => "0";
     randomUUID := fun n => "uuid-" ++ JS.nat_toString n;
     pdfjsLib := Some lib;
     readAsArrayBuffer := fun f =>
       if String.eqb (name f) "letter.pdf" then onload (Some [Byte.x01])
       else if String.eqb (name f) "damaged.pdf" then onload (Some [Byte.x02])
       else onload (Some []);
     fetch := fun _ => outcome |}.

Definition streaming (reader : ReadableStream) : JS.Result Response :=
  inr {| ok := true; status := 200; body := Some reader;
         json := inl (JS.Error "body stream already read") |}.

Definition refused : JS.Result Response :=
  inr {| ok := false; status := 400; body := None; json := inr error_value |}.

(** The user has typed a greeting. *)
Definition greeting : State :=
  {| messages := messages initialState; input := " hi "; file := None;
     isLoading := false; error := None |}.

(** The user has attached a file and typed nothing. *)
Definition attached (f : File) : State :=
  {| messages := messages initialState; input := "  "; file := Some f;
     isLoading := false; error := None |}.

(** Two events in two chunks, each followed by the blank line that ends
    an event. *)
Definition hello_chunks : list (list Line) :=
  [ [ fragment_record (event_json "Hel") (event_value "Hel") "Hel";
      other_line EmptyString ];
    [ fragment_record (event_json "lo") (event_value "lo") "lo";
      other_line EmptyString ] ].

(** A cut event, then a whole one. *)
Definition garbled_chunks : list (list Line) :=
  [ [ fragment_record (event_json "Hel") (event_value "Hel") "Hel" ];
    [ malformed_record truncated_json;
      fragment_record (event_json "lo") (event_value "lo") "lo" ] ].

(** Nothing that carries text. *)
Definition quiet_chunks : list (list Line) :=
  [ [ metadata_record usage_json usage_value; other_line EmptyString ];
    [ heartbeat " "; other_line ": keep-alive" ] ].

(** One event on one line, and the same line cut in two inside the JSON
    text. *)
Definition whole_record : string := "data: " ++ event_json "Hello" ++ NL.

Definition first_part : string := "data: " ++ truncated_json.

Definition second_part : string :=
  JS.substring_from (String.length first_part) whole_record.







(** An event whose text part is an empty array, and a platform whose
    JSON.parse knows it. *)
Definition array_json : string :=
  "{" ++ quoted "candidates" ++ ":[{" ++ quoted "content" ++ ":{"
  ++ quoted "parts" ++ ":[{" ++ quoted "text" ++ ":[]}]}}]}".

Definition array_value : JS.Value :=
  JS.Obj [("candidates",
           JS.Arr [JS.Obj [("content",
                            JS.Obj [("parts",
                                     JS.Arr [JS.Obj [("text", JS.Arr [])]])])]])].

Definition env_with_array (outcome : JS.Result Response) : Env :=
  {| JSON_parse := fun s =>
       if String.eqb s array_json then inr array_value else parse s;
     Number_toString := Number_toString (env outcome);
     randomUUID := randomUUID (env outcome);
     pdfjsLib := pdfjsLib (env outcome);
     readAsArrayBuffer := readAsArrayBuffer (env outcome);
     fetch := fetch (env outcome) |}.

End Sample.

(** * Facts *)

(** ** Strings *)

Lemma append_assoc (a b c : string) : (a ++ b) ++ c = a ++ (b ++ c).
Proof.
  induction a as [|x a IH]; simpl; [reflexivity|]. now rewrite IH.
Qed.

Lemma append_empty_r (a : string) : a ++ EmptyString = a.
Proof.
  induction a as [|x a IH]; simpl; [reflexivity|]. now rewrite IH.
Qed.

Lemma concat_strings_app (l1 l2 : list string) :
  concat_strings (l1 ++ l2) = concat_strings l1 ++ concat_strings l2.
Proof.
  induction l1 as [|s l1 IH]; simpl; [reflexivity|].
  now rewrite IH, append_assoc.
Qed.

Lemma split_LF_not_nil (s : string) : JS.split_LF s <> [].
Proof.
  induction s as [|c s IH]; simpl; [discriminate|].
  destruct (Ascii.eqb c JS.LF); [discriminate|].
  destruct (JS.split_LF s); discriminate.
Qed.

(** Splitting at a line feed that is there: the lines before it, then the
    lines after it. *)
Lemma split_LF_app_LF (a b : string) :
  JS.split_LF (a ++ String JS.LF b) = (JS.split_LF a ++ JS.split_LF b)%list.
Proof.
  induction a as [|c a IH]; simpl.
  - reflexivity.
  - rewrite IH. destruct (Ascii.eqb c JS.LF); [reflexivity|].
    pose proof (split_LF_not_nil a) as Hne.
    destruct (JS.split_LF a) as [|l ls]; [contradiction|reflexivity].
Qed.

Lemma split_LF_one_line (s : string) :
  one_line s = true -> JS.split_LF s = [s].
Proof.
  induction s as [|c s IH]; simpl; [reflexivity|].
  intros H. apply andb_true_iff in H as [Hc Hs].
  apply negb_true_iff in Hc. rewrite Hc, (IH Hs). reflexivity.
Qed.

Lemma split_LF_line (l rest : string) :
  one_line l = true ->
  JS.split_LF (l ++ String JS.LF rest) = l :: JS.split_LF rest.
Proof.
  intros H. now rewrite split_LF_app_LF, (split_LF_one_line _ H).
Qed.

Lemma split_LF_chunk_text (lines : list Line) :
  Forall (fun l => one_line (line_text l) = true) lines ->
  JS.split_LF (chunk_text lines) = (map line_text lines ++ [EmptyString])%list.
Proof.
  unfold chunk_text. induction 1 as [|l lines Hl _ IH]; simpl.
  - reflexivity.
  - rewrite append_assoc. simpl. rewrite (split_LF_line _ _ Hl), IH. reflexivity.
Qed.

(** ** The read loop *)

(** Runs the operations of the handler monad that are in sight. *)
Ltac run_handler :=
  cbv beta delta
    [bind ret throw try_catch try_finally await setState setMessages
     setInput setFile setIsLoading setError setMessages_drawing
     crypto_randomUUID await_fetch
     start_assistant_message update_assistant_message];
  cbn.

Section Decoder_facts.

Variable env : Env.

Lemma truthy_string_true (s : string) :
  s <> EmptyString -> JS.truthy_string s = true.
Proof. destruct s; [contradiction|reflexivity]. Qed.

Lemma apply_textPart_returns (v : JS.Value) (l : Locals) (s : Sys) :
  exists s' l', apply_textPart env v l s = (s', inr l').
Proof.
  unfold apply_textPart.
  destruct (assistantMessageId l) as [i|]; [destruct (JS.truthy_string i)|];
    run_handler; eauto.
Qed.

(** A line either reaches the body of [if (textPart)] with its text part,
    or leaves everything as it is. *)
Lemma process_line_textPart (line : string) (l : Locals) (s : Sys) :
  process_line env line l s =
  match line_textPart env line with
  | v :: _ => apply_textPart env v l s
  | [] => (s, inr l)
  end.
Proof.
  unfold process_line, line_textPart.
  destruct (JS.startsWith line "data: "); [|reflexivity].
  destruct (JS.truthy_string (JS.trim (JS.substring_from 6 line))); [|reflexivity].
  unfold try_catch.
  destruct (JSON_parse env _) as [err|parsed]; [reflexivity|].
  destruct (textPart_of parsed) as [err|[v|]]; try reflexivity.
  destruct (JS.truthy (Some v)); [|reflexivity].
  destruct (apply_textPart_returns v l s) as (s' & l' & ->). reflexivity.
Qed.

Lemma line_textPart_length (line : string) :
  line_textPart env line = [] \/ exists v, line_textPart env line = [v].
Proof.
  unfold line_textPart.
  destruct (JS.startsWith line "data: "); [|now left].
  destruct (JS.truthy_string _); [|now left].
  destruct (JSON_parse env _) as [err|parsed]; [now left|].
  destruct (textPart_of parsed) as [err|[v|]]; try now left.
  destruct (JS.truthy (Some v)); [right; eauto|now left].
Qed.

(** The in-place update touches no message with another id. *)
Lemma map_update_other (i c : string) (ms : list Message) :
  ~ In i (map id ms) ->
  map (fun msg =>
         if String.eqb (id msg) i
         then {| id := id msg; role := role msg; content := c |}
         else msg) ms = ms.
Proof.
  induction ms as [|m ms IH]; simpl; [reflexivity|].
  intros H. destruct (String.eqb_spec (id m) i) as [E|_].
  - exfalso. apply H. now left.
  - rewrite IH; [reflexivity|]. intros Hin. apply H. now right.
Qed.

Lemma text_of_snoc (parts : list JS.Value) (v : JS.Value) :
  text_of env (parts ++ [v]) =
  text_of env parts ++ JS.ToString (Number_toString env) v.
Proof.
  unfold text_of. rewrite map_app, concat_strings_app. simpl.
  now rewrite append_empty_r.
Qed.

(** One text part more: the first one appends the assistant message under
    a new id, a later one replaces the content of that message. *)
Lemma apply_textPart_decoder (s0 : Sys) (seen : list State)
  (parts : list JS.Value) (v : JS.Value) :
  fresh_id (randomUUID env (uuid_calls s0)) (messages (ui s0)) ->
  apply_textPart env v (decoder_locals env s0 parts) (decoder_sys env s0 seen parts)
  = (decoder_sys env s0 seen (parts ++ [v]),
     inr (decoder_locals env s0 (parts ++ [v]))).
Proof.
  intros [Hne Hfresh].
  pose proof (text_of_snoc parts v) as Htext.
  unfold apply_textPart, decoder_locals, decoder_sys, decoder_ui, assistant_turn.
  destruct parts as [|p parts]; cbn [assistantMessageId aiResponseContent app].
  - run_handler. rewrite app_nil_r. cbn in Htext. rewrite Htext. reflexivity.
  - rewrite (truthy_string_true _ Hne). run_handler.
    rewrite map_app, (map_update_other _ _ _ Hfresh). cbn.
    rewrite String.eqb_refl.
    unfold text_of in Htext. cbn in Htext. rewrite Htext. reflexivity.
Qed.


Lemma process_line_decoder (s0 : Sys) (seen : list State)
  (parts : list JS.Value) (line : string) :
  (line_textPart env line <> [] ->
   fresh_id (randomUUID env (uuid_calls s0)) (messages (ui s0))) ->
  process_line env line (decoder_locals env s0 parts) (decoder_sys env s0 seen parts)
  = (decoder_sys env s0 seen (parts ++ line_textPart env line),
     inr (decoder_locals env s0 (parts ++ line_textPart env line))).
Proof.
  intros Hfresh. rewrite process_line_textPart.
  destruct (line_textPart_length line) as [E|[v E]]; rewrite E in *.
  - now rewrite app_nil_r.
  - apply apply_textPart_decoder, Hfresh. discriminate.
Qed.

Lemma process_lines_decoder (s0 : Sys) (seen : list State) (lines : list string) :
  forall parts,
  (flat_map (line_textPart env) lines <> [] ->
   fresh_id (randomUUID env (uuid_calls s0)) (messages (ui s0))) ->
  process_lines env lines (decoder_locals env s0 parts) (decoder_sys env s0 seen parts)
  = (decoder_sys env s0 seen (parts ++ flat_map (line_textPart env) lines),
     inr (decoder_locals env s0 (parts ++ flat_map (line_textPart env) lines))).
Proof.
  induction lines as [|line lines IH]; intros parts Hfresh; simpl.
  - now rewrite app_nil_r.
  - unfold bind. rewrite process_line_decoder.
    + rewrite IH, app_assoc; [reflexivity|].
      intros Hne. apply Hfresh. simpl. intros E.
      apply app_eq_nil in E as [_ E]. contradiction.
    + intros Hne. apply Hfresh. simpl. intros E.
      apply app_eq_nil in E as [E _]. contradiction.
Qed.

(** The read loop in closed form: the text parts of the stream are applied
    in order, and the loop ends as the stream does. *)
Lemma read_loop_decoder (s0 : Sys) (reader : ReadableStream) :
  forall seen parts,
  (stream_textParts env reader <> [] ->
   fresh_id (randomUUID env (uuid_calls s0)) (messages (ui s0))) ->
  read_loop env reader (decoder_locals env s0 parts) (decoder_sys env s0 seen parts)
  = (decoder_sys env s0 (seen ++ read_loop_suspended env s0 reader parts)
       (parts ++ stream_textParts env reader),
     stream_end reader).
Proof.
  induction reader as [|value rest IH|err]; intros seen parts Hfresh; simpl.
  - unfold await. cbn. now rewrite app_nil_r.
  - unfold bind, await. cbn [ui uuid_calls posted suspended decoder_sys].
    fold (decoder_sys env s0 (seen ++ [decoder_ui env s0 parts]) parts).
    unfold chunk_textParts in *.
    rewrite process_lines_decoder.
    + rewrite IH.
      * now rewrite <- !app_assoc.
      * intros Hne. apply Hfresh. intros E.
        apply app_eq_nil in E as [_ E]. contradiction.
    + intros Hne. apply Hfresh. intros E.
      apply app_eq_nil in E as [E _]. contradiction.
  - unfold await. cbn. now rewrite app_nil_r.
Qed.

End Decoder_facts.

(** ** The handler *)

Section Handler_facts.

Variable env : Env.

Lemma guard_accepted (st : State) :
  accepted st ->
  (String.eqb (JS.trim (input st)) EmptyString
   && match file st with Some _ => false | None => true end)
  || isLoading st = false.
Proof.
  intros [Hidle Hsome]. rewrite Hidle, orb_false_r.
  destruct Hsome as [Htext|Hfile].
  - apply String.eqb_neq in Htext. now rewrite Htext.
  - destruct (file st); [apply andb_false_r|contradiction].
Qed.

(** An accepted submission whose extraction step succeeds posts the
    request; what remains is to decode the response. *)
Lemma handleSendMessage_accepted (st : State) (pdfText : string) :
  accepted st ->
  extraction env st = inr pdfText ->
  handleSendMessage env st (start st) =
  try_finally
    (try_catch
       (match fetch env (chatHistory (messages st) (apiRequestText st pdfText)) with
        | inl err => throw err
        | inr response => decode_response env response
        end)
       (on_failure env))
    (setIsLoading false)
    (dispatched env st pdfText).
Proof.
  intros Hacc Hext. unfold handleSendMessage. cbn [start ui].
  rewrite (guard_accepted st Hacc).
  unfold extraction in Hext. unfold dispatched.
  destruct (file st) as [f|] eqn:Hfile.
  - unfold send, request_and_decode. run_handler. rewrite Hext. cbn.
    destruct (fetch env _) as [err|response]; reflexivity.
  - injection Hext as <-.
    unfold send, request_and_decode. run_handler.
    destruct (fetch env _) as [err|response]; reflexivity.
Qed.

Lemma decoder_sys_nil (s : Sys) : decoder_sys env s (suspended s) [] = s.
Proof.
  destruct s as [[ms i f b e] n p seen].
  unfold decoder_sys, decoder_ui. cbn. now rewrite app_nil_r.
Qed.

(** A success status with a body: the read loop runs on the body. *)
Lemma decode_response_streams (s0 : Sys) (response : Response)
  (reader : ReadableStream) :
  ok response = true ->
  body response = Some reader ->
  (stream_textParts env reader <> [] ->
   fresh_id (randomUUID env (uuid_calls s0)) (messages (ui s0))) ->
  decode_response env response s0 =
  (decoder_sys env s0 (suspended s0 ++ read_loop_suspended env s0 reader [])
     (stream_textParts env reader),
   stream_end reader).
Proof.
  intros Hok Hbody Hfresh. unfold decode_response. rewrite Hok, Hbody.
  pose proof (read_loop_decoder env s0 reader (suspended s0) [] Hfresh) as H.
  rewrite decoder_sys_nil in H. exact H.
Qed.

(** Any other response: the error body is awaited and an error thrown,
    either the one [response.json()] rejects with or the API error. *)
Lemma decode_response_bad_status (s : Sys) (response : Response) :
  ok response = false \/ body response = None ->
  decode_response env response s =
  ({| ui := ui s; uuid_calls := uuid_calls s; posted := posted s;
      suspended := (suspended s ++ [ui s])%list |},
   inl match json response with
       | inl err => err
       | inr errorBody => apiError env response errorBody
       end).
Proof.
  intros H. unfold decode_response.
  assert (E : match ok response, body response with
              | true, Some _ => false
              | _, _ => true
              end = true).
  { destruct H as [-> | ->]; [reflexivity|]. now destruct (ok response). }
  destruct (ok response); destruct (body response); try discriminate;
    run_handler; destruct (json response); reflexivity.
Qed.

(** The whole submission when the response streams. *)
Lemma handleSendMessage_streamed (st : State) (pdfText : string)
  (response : Response) (reader : ReadableStream) :
  accepted st ->
  extraction env st = inr pdfText ->
  fetch env (chatHistory (messages st) (apiRequestText st pdfText)) = inr response ->
  ok response = true ->
  body response = Some reader ->
  (stream_textParts env reader <> [] ->
   fresh_id (randomUUID env 1) (messages st ++ [userMessage env st])) ->
  let parts := stream_textParts env reader in
  let s := fst (handleSendMessage env st (start st)) in
  ui s =
    {| messages :=
         (messages st ++ [userMessage env st]
          ++ assistant_turn env (randomUUID env 1) parts
          ++ match stream_end reader with
             | inr _ => []
             | inl err =>
                 [failure_turn
                    (randomUUID env (match parts with [] => 1 | _ => 2 end)) err]
             end)%list;
       input := EmptyString;
       file := None;
       isLoading := false;
       error := match stream_end reader with
                | inr _ => None
                | inl err => Some (message_or err "An unknown error occurred.")
                end |}
  /\ posted s = [chatHistory (messages st) (apiRequestText st pdfText)]
  /\ suspended s =
     (suspended (dispatched env st pdfText)
      ++ read_loop_suspended env (dispatched env st pdfText) reader [])%list.
Proof.
  intros Hacc Hext Hfetch Hok Hbody Hfresh parts s. subst s.
  rewrite (handleSendMessage_accepted st pdfText Hacc Hext), Hfetch.
  unfold try_finally, try_catch.
  rewrite (decode_response_streams (dispatched env st pdfText) response reader
             Hok Hbody Hfresh).
  fold parts. unfold failure_turn.
  destruct (stream_end reader) as [err|[]]; destruct parts; run_handler;
    rewrite <- ?app_assoc; repeat split.
Qed.

(** The whole submission when the extraction fails. *)
Lemma handleSendMessage_extraction_failed (st : State) (f : File)
  (err : JS.Thrown) :
  isLoading st = false ->
  file st = Some f ->
  parsePdf env f = inl err ->
  handleSendMessage env st (start st)
  = ({| ui := {| messages := messages st;
                 input := input st;
                 file := Some f;
                 isLoading := false;
                 error := Some (message_or err "Failed to parse PDF.") |};
        uuid_calls := 0;
        posted := [];
        suspended := [extracting st] |},
     inr tt).
Proof.
  intros Hidle Hfile Herr. unfold handleSendMessage. cbn [start ui].
  rewrite (guard_accepted st).
  - rewrite Hfile. run_handler. rewrite Herr. cbn.
    unfold extracting. now rewrite Hfile.
  - split; [exact Hidle|]. right. now rewrite Hfile.
Qed.

(** The whole submission when [fetch] rejects. *)
Lemma submit_fetch_rejected (st : State) (pdfText : string) (err : JS.Thrown) :
  accepted st ->
  extraction env st = inr pdfText ->
  fetch env (chatHistory (messages st) (apiRequestText st pdfText)) = inl err ->
  submit env st = failed_early env st err.
Proof.
  intros Hacc Hext Hfetch. unfold submit, failed_early.
  rewrite (handleSendMessage_accepted st pdfText Hacc Hext), Hfetch.
  run_handler. now rewrite <- app_assoc.
Qed.

(** The whole submission when the response is not a success with a body. *)
Lemma submit_bad_status (st : State) (pdfText : string) (response : Response) :
  accepted st ->
  extraction env st = inr pdfText ->
  fetch env (chatHistory (messages st) (apiRequestText st pdfText)) = inr response ->
  ok response = false \/ body response = None ->
  submit env st
  = failed_early env st
      match json response with
      | inl rejected => rejected
      | inr errorBody => apiError env response errorBody
      end.
Proof.
  intros Hacc Hext Hfetch Hbad. unfold submit, failed_early.
  rewrite (handleSendMessage_accepted st pdfText Hacc Hext), Hfetch.
  unfold try_finally, try_catch.
  rewrite (decode_response_bad_status _ response Hbad).
  run_handler. now rewrite <- app_assoc.
Qed.

End Handler_facts.

(** ** Streams made of whole lines *)

Section Line_facts.

Variable env : Env.

Lemma startsWith_data (rest : string) :
  JS.startsWith ("data: " ++ rest) "data: " = true.
Proof. cbn. now destruct rest. Qed.

Lemma substring_data (rest : string) :
  JS.substring_from 6 ("data: " ++ rest) = rest.
Proof. reflexivity. Qed.

(** A well-formed line yields the fragment of its kind, if it has one. *)
Lemma line_textPart_wf (l : Line) :
  line_wf env l ->
  line_textPart env (line_text l) = map JS.Str (line_fragment l).
Proof.
  intros [_ Hwf]. unfold line_textPart.
  destruct l as [jsonStr parsed fragment|jsonStr parsed|jsonStr|blank|line];
    cbn [line_text line_fragment map] in *;
    rewrite ?startsWith_data, ?substring_data.
  - destruct Hwf as (Hne & Hparse & Htext & Hfrag).
    rewrite (truthy_string_true _ Hne), Hparse, Htext. cbn [JS.truthy].
    now rewrite (truthy_string_true _ Hfrag).
  - destruct Hwf as (Hparse & Htext).
    destruct (JS.truthy_string (JS.trim jsonStr)); [|reflexivity].
    rewrite Hparse.
    destruct (textPart_of parsed) as [err|[v|]]; try reflexivity.
    now rewrite Htext.
  - destruct Hwf as (err & Hparse).
    destruct (JS.truthy_string (JS.trim jsonStr)); [|reflexivity].
    now rewrite Hparse.
  - now rewrite Hwf.
  - now rewrite Hwf.
Qed.

Lemma chunk_textParts_wf (lines : list Line) :
  Forall (line_wf env) lines ->
  chunk_textParts env (chunk_text lines) = map JS.Str (chunk_fragments lines).
Proof.
  intros Hwf. unfold chunk_textParts, chunk_fragments.
  rewrite split_LF_chunk_text.
  - rewrite flat_map_app. cbn. rewrite app_nil_r.
    induction Hwf as [|l lines Hl _ IH]; cbn; [reflexivity|].
    now rewrite (line_textPart_wf l Hl), IH, map_app.
  - eapply Forall_impl; [|exact Hwf]. now intros l [H _].
Qed.

Lemma stream_textParts_wf (chunks : list (list Line)) :
  Forall (Forall (line_wf env)) chunks ->
  stream_textParts env (stream_of chunks) = map JS.Str (stream_fragments chunks).
Proof.
  unfold stream_of, stream_fragments, stream_of_texts.
  induction 1 as [|c chunks Hc _ IH];
    cbn [map fold_right stream_textParts flat_map]; [reflexivity|].
  now rewrite (chunk_textParts_wf c Hc), IH, map_app.
Qed.

Lemma stream_end_of_texts (values : list string) :
  stream_end (stream_of_texts values) = inr tt.
Proof. induction values; cbn; auto. Qed.



Lemma text_of_Str (fs : list string) :
  text_of env (map JS.Str fs) = concat_strings fs.
Proof.
  unfold text_of. rewrite map_map. cbn. now rewrite map_id.
Qed.

Lemma assistant_turn_Str (i : string) (fs : list string) :
  fs <> [] ->
  assistant_turn env i (map JS.Str fs)
  = [ {| id := i; role := assistant; content := concat_strings fs |} ].
Proof.
  intros Hne. rewrite <- text_of_Str. now destruct fs.
Qed.


End Line_facts.

(** ** The page loop *)

Section Extractor_facts.

Variable pdf : PDFDocumentProxy.

(** The loop over readable pages appends their texts in page order. *)
Lemma parsePdf_pages_readable (fragments : nat -> list string) :
  forall remaining i fullText,
  (forall k, i <= k < i + remaining -> page_yields pdf k (fragments k)) ->
  parsePdf_pages pdf remaining i fullText
  = inr (fullText
         ++ concat_strings (map (fun k => page_text (fragments k)) (seq i remaining))).
Proof.
  induction remaining as [|remaining IH]; intros i fullText Hpages; cbn.
  - now rewrite append_empty_r.
  - destruct (Hpages i) as (page & textContent & -> & -> & ->); [lia|].
    rewrite IH.
    + unfold page_text. now rewrite !append_assoc.
    + intros k Hk. apply Hpages. lia.
Qed.

(** The loop stops with an error at the first page that cannot be read. *)
Lemma parsePdf_pages_unreadable (k : nat) :
  page_fails pdf k ->
  forall remaining i fullText,
  i <= k < i + remaining ->
  exists err, parsePdf_pages pdf remaining i fullText = inl err.
Proof.
  intros Hfails.
  induction remaining as [|remaining IH]; intros i fullText Hk; [lia|].
  cbn. destruct (getPage pdf i) as [err|page] eqn:Hpage; [eauto|].
  destruct (getTextContent page) as [err|textContent] eqn:Htext; [eauto|].
  apply IH. destruct (Nat.eq_dec k i) as [->|Hne]; [|lia].
  exfalso. destruct Hfails as [(err & E)|(page' & err & E & E')].
  - congruence.
  - rewrite Hpage in E. injection E as <-. congruence.
Qed.

End Extractor_facts.

(** ** What decoding leaves alone *)

Lemma steady_refl (s : Sys) : steady s s.
Proof.
  repeat split. exists []. split; [now rewrite app_nil_r|constructor].
Qed.

Lemma steady_trans (s1 s2 s3 : Sys) :
  steady s1 s2 -> steady s2 s3 -> steady s1 s3.
Proof.
  intros (Hp & Hb & more & Hs & Hall) (Hp' & Hb' & more' & Hs' & Hall').
  repeat split; try congruence.
  exists (more ++ more')%list. split.
  - now rewrite Hs', Hs, app_assoc.
  - apply Forall_app. split; [exact Hall|].
    eapply Forall_impl; [|exact Hall']. intros shown H. congruence.
Qed.

Lemma keeps_ret {A : Type} (a : A) : keeps (ret a).
Proof. intros s. apply steady_refl. Qed.

Lemma keeps_throw {A : Type} (err : JS.Thrown) : keeps (@throw A err).
Proof. intros s. apply steady_refl. Qed.

Lemma keeps_bind {A B : Type} (m : M A) (k : A -> M B) :
  keeps m -> (forall a, keeps (k a)) -> keeps (bind m k).
Proof.
  intros Hm Hk s. unfold bind. specialize (Hm s).
  destruct (m s) as [s' [err|a]]; cbn in *; [exact Hm|].
  eapply steady_trans; [exact Hm|apply Hk].
Qed.

Lemma keeps_try_catch {A : Type} (m : M A) (h : JS.Thrown -> M A) :
  keeps m -> (forall err, keeps (h err)) -> keeps (try_catch m h).
Proof.
  intros Hm Hh s. unfold try_catch. specialize (Hm s).
  destruct (m s) as [s' [err|a]]; cbn in *; [|exact Hm].
  eapply steady_trans; [exact Hm|apply Hh].
Qed.

Lemma keeps_await {A : Type} (p : JS.Result A) : keeps (await p).
Proof.
  intros s. repeat split. exists [ui s]. split; [reflexivity|].
  now constructor.
Qed.

Lemma keeps_setState (f : State -> State) :
  (forall st, isLoading (f st) = isLoading st) -> keeps (setState f).
Proof.
  intros Hf s. repeat split; cbn; [apply Hf|].
  exists []. split; [now rewrite app_nil_r|constructor].
Qed.

Lemma keeps_setMessages (f : list Message -> list Message) :
  keeps (setMessages f).
Proof. now apply keeps_setState. Qed.

Lemma keeps_setError (v : option string) : keeps (setError v).
Proof. now apply keeps_setState. Qed.

Section Steady_facts.

Variable env : Env.

Lemma keeps_crypto_randomUUID : keeps (crypto_randomUUID env).
Proof.
  intros s. repeat split. exists []. split; [cbn; now rewrite app_nil_r|constructor].
Qed.

Lemma keeps_apply_textPart (v : JS.Value) (l : Locals) :
  keeps (apply_textPart env v l).
Proof.
  unfold apply_textPart.
  destruct (assistantMessageId l) as [i|]; [destruct (JS.truthy_string i)|];
    unfold start_assistant_message, update_assistant_message;
    repeat first [ apply keeps_bind; [|intros ?]
                 | apply keeps_setMessages
                 | apply keeps_crypto_randomUUID
                 | apply keeps_ret ].
Qed.

Lemma keeps_process_line (line : string) (l : Locals) :
  keeps (process_line env line l).
Proof.
  intros s. rewrite process_line_textPart.
  destruct (line_textPart env line) as [|v _];
    [apply steady_refl|apply keeps_apply_textPart].
Qed.

Lemma keeps_process_lines (lines : list string) :
  forall l, keeps (process_lines env lines l).
Proof.
  induction lines as [|line lines IH]; intros l; cbn.
  - apply keeps_ret.
  - apply keeps_bind; [apply keeps_process_line|exact IH].
Qed.

Lemma keeps_read_loop (reader : ReadableStream) :
  forall l, keeps (read_loop env reader l).
Proof.
  induction reader as [|value rest IH|err]; intros l; cbn.
  - apply keeps_await.
  - apply keeps_bind; [apply keeps_await|intros _].
    apply keeps_bind; [apply keeps_process_lines|exact IH].
  - apply keeps_await.
Qed.

Lemma keeps_decode_response (response : Response) :
  keeps (decode_response env response).
Proof.
  unfold decode_response.
  destruct (ok response); destruct (body response);
    first [ apply keeps_read_loop
          | apply keeps_bind; [apply keeps_await|intros ?; apply keeps_throw] ].
Qed.

Lemma keeps_setMessages_drawing (f : string -> list Message -> list Message) :
  keeps (setMessages_drawing env f).
Proof.
  intros s. repeat split. exists []. split; [cbn; now rewrite app_nil_r|constructor].
Qed.

Lemma keeps_on_failure (err : JS.Thrown) : keeps (on_failure env err).
Proof.
  unfold on_failure.
  apply keeps_bind; [apply keeps_setError|intros _].
  apply keeps_setMessages_drawing.
Qed.

(** A submission that is under way posts one request and shows a busy
    state at each of its suspension points. *)
Lemma handleSendMessage_steady (st : State) (pdfText : string) :
  accepted st ->
  extraction env st = inr pdfText ->
  let s := fst (handleSendMessage env st (start st)) in
  posted s = [chatHistory (messages st) (apiRequestText st pdfText)]
  /\ exists more,
       suspended s = (suspended (dispatched env st pdfText) ++ more)%list
       /\ Forall (fun shown => isLoading shown = true) more.
Proof.
  intros Hacc Hext.
  rewrite (handleSendMessage_accepted env st pdfText Hacc Hext).
  set (decode := try_catch _ _).
  assert (Hkeeps : keeps decode).
  { apply keeps_try_catch; [|apply keeps_on_failure].
    destruct (fetch env _); [apply keeps_throw|apply keeps_decode_response]. }
  specialize (Hkeeps (dispatched env st pdfText)).
  unfold try_finally. destruct (decode _) as [s' r]. cbn in *.
  destruct Hkeeps as (Hp & _ & more & Hs & Hall). split; [exact Hp|].
  exists more. split; assumption.
Qed.

Lemma handleSendMessage_busy (rendered : State) (s : Sys) :
  isLoading rendered = true -> handleSendMessage env rendered s = (s, inr tt).
Proof.
  intros H. unfold handleSendMessage. now rewrite H, orb_true_r.
Qed.


End Steady_facts.

(** ** Chunk by chunk *)

Section Chunk_facts.

Variable env : Env.

Lemma process_line_returns (line : string) (l : Locals) (s : Sys) :
  exists s' l', process_line env line l s = (s', inr l').
Proof.
  rewrite process_line_textPart.
  destruct (line_textPart env line) as [|v _]; [eauto|].
  apply apply_textPart_returns.
Qed.

Lemma process_lines_returns (lines : list string) :
  forall l s, exists s' l', process_lines env lines l s = (s', inr l').
Proof.
  induction lines as [|line lines IH]; intros l s; cbn; [unfold ret; eauto|].
  unfold bind.
  destruct (process_line_returns line l s) as (s1 & l1 & ->). apply IH.
Qed.

Lemma process_lines_app (lines1 lines2 : list string) :
  forall l s,
  process_lines env (lines1 ++ lines2) l s
  = match process_lines env lines1 l s with
    | (s', inr l') => process_lines env lines2 l' s'
    | (s', inl err) => (s', inl err)
    end.
Proof.
  induction lines1 as [|line lines1 IH]; intros l s; cbn; [reflexivity|].
  unfold bind. destruct (process_line env line l s) as [s1 [err|l1]];
    [reflexivity|apply IH].
Qed.

(** The lines are processed without a look at the states recorded at the
    suspension points. *)
Lemma apply_textPart_shown (v : JS.Value) (l : Locals) (s1 s2 : Sys) :
  same_but_shown s1 s2 ->
  same_but_shown (fst (apply_textPart env v l s1)) (fst (apply_textPart env v l s2))
  /\ snd (apply_textPart env v l s1) = snd (apply_textPart env v l s2).
Proof.
  intros (Hui & Hn & Hp). unfold apply_textPart, same_but_shown.
  destruct (assistantMessageId l) as [i|]; [destruct (JS.truthy_string i)|];
    run_handler; rewrite ?Hui, ?Hn, ?Hp; repeat split.
Qed.

Lemma process_lines_shown (lines : list string) :
  forall l s1 s2,
  same_but_shown s1 s2 ->
  same_but_shown (fst (process_lines env lines l s1))
    (fst (process_lines env lines l s2))
  /\ snd (process_lines env lines l s1) = snd (process_lines env lines l s2).
Proof.
  induction lines as [|line lines IH]; intros l s1 s2 Hsame; cbn.
  - now split.
  - unfold bind. rewrite !process_line_textPart.
    destruct (line_textPart env line) as [|v _]; [now apply IH|].
    destruct (apply_textPart_shown v l s1 s2 Hsame) as (Hsame' & Hres).
    destruct (apply_textPart_returns env v l s1) as (s1' & l1 & E1).
    destruct (apply_textPart_returns env v l s2) as (s2' & l2 & E2).
    rewrite E1, E2 in *. cbn in Hsame', Hres. injection Hres as <-.
    now apply IH.
Qed.

(** Reading a stream of chunks comes to processing the lines of the
    first chunk, then the lines of the second, and so on: nothing of a
    chunk is kept for the next. *)
Lemma read_loop_chunk_by_chunk (values : list string) :
  forall l s,
  same_but_shown (fst (read_loop env (stream_of_texts values) l s))
    (fst (process_lines env (flat_map JS.split_LF values) l s))
  /\ snd (read_loop env (stream_of_texts values) l s) = inr tt.
Proof.
  induction values as [|value values IH]; intros l s.
  - cbn. repeat split.
  - cbn [stream_of_texts fold_right read_loop flat_map].
    fold (stream_of_texts values).
    rewrite process_lines_app. unfold bind, await. cbv beta iota.
    set (s1 := {| ui := ui s; uuid_calls := uuid_calls s; posted := posted s;
                  suspended := (suspended s ++ [ui s])%list |}).
    assert (Hsame : same_but_shown s1 s) by (repeat split).
    destruct (process_lines_shown (JS.split_LF value) l s1 s Hsame) as (Hsame' & Hres).
    destruct (process_lines_returns (JS.split_LF value) l s1) as (s2 & l2 & E1).
    destruct (process_lines_returns (JS.split_LF value) l s) as (s2' & l2' & E2).
    rewrite E1, E2 in *. cbn in Hsame', Hres. injection Hres as <-.
    destruct (IH l2 s2) as (Hloop & Hend). split; [|exact Hend].
    destruct (process_lines_shown (flat_map JS.split_LF values) l2 s2 s2' Hsame')
      as (Hrest & _).
    destruct Hloop as (? & ? & ?), Hrest as (? & ? & ?).
    repeat split; congruence.
Qed.

(** Where every chunk ends with a line feed, its lines are the lines of
    the undivided text, up to empty lines, which do nothing. *)
Lemma process_lines_aligned (values : list string) :
  Forall ends_with_LF values ->
  forall l s,
  process_lines env (flat_map JS.split_LF values) l s
  = process_lines env (JS.split_LF (concat_strings values)) l s.
Proof.
  induction 1 as [|value values [a ->] _ IH]; intros l s; [reflexivity|].
  cbn [flat_map concat_strings].
  rewrite append_assoc. cbn [append].
  rewrite !split_LF_app_LF, <- app_assoc, !process_lines_app.
  destruct (process_lines env (JS.split_LF a) l s) as [s' [err|l']];
    [reflexivity|].
  cbn [JS.split_LF app]. apply IH.
Qed.

End Chunk_facts.

(** * The properties of the specification *)

(** Decides the side conditions of the examples by evaluation. *)
Ltac by_evaluation :=
  repeat match goal with
         | |- _ /\ _ => split
         | |- Forall _ _ => constructor
         | |- accepted _ => split
         | |- fresh_id _ _ => split
         | |- line_wf _ _ => split
         | |- exists err, _ = inl err => eexists; reflexivity
         end;
  try reflexivity;
  try (vm_compute; first [ reflexivity | discriminate | tauto
                         | left; discriminate | right; discriminate
                         | intuition discriminate ]).

(** ** The response decoder *)




(** C2 as stated fails: a record line cut in two by a chunk boundary is
    not put together again.  Delivered whole, the sample event gives the
    assistant message Hello; delivered in two chunks, it gives none. *)
Lemma split_record_is_lost :
  Sample.first_part ++ Sample.second_part = Sample.whole_record
  /\ messages
       (submit (Sample.env (Sample.streaming (stream_of_texts [Sample.whole_record])))
          Sample.greeting)
     = (messages initialState
        ++ [ {| id := "uuid-0"; role := user; content := "hi" |};
             {| id := "uuid-1"; role := assistant; content := "Hello" |} ])%list
  /\ messages
       (submit
          (Sample.env
             (Sample.streaming
                (stream_of_texts [Sample.first_part; Sample.second_part])))
          Sample.greeting)
     = (messages initialState
        ++ [ {| id := "uuid-0"; role := user; content := "hi" |} ])%list.
Proof. repeat split. Qed.

(** C2, as the handler has it.  Every chunk is split into lines on its
    own and no partial line is carried over to the next chunk.  So a
    stream whose chunks all end at a line feed is decoded like the same
    text delivered in one chunk: the same component state, the same ids
    drawn, the same outcome, whatever the state of the read loop. *)
Theorem line_aligned_chunks_decode_as_one_chunk
  (env : Env) (values : list string) (l : Locals) (s : Sys) :
  Forall ends_with_LF values ->
  let divided := read_loop env (stream_of_texts values) l s in
  let undivided := read_loop env (stream_of_texts [concat_strings values]) l s in
  ui (fst divided) = ui (fst undivided)
  /\ uuid_calls (fst divided) = uuid_calls (fst undivided)
  /\ snd divided = snd undivided.
Proof.
  intros Haligned divided undivided.
  destruct (read_loop_chunk_by_chunk env values l s) as ((H1 & H2 & _) & Hend).
  destruct (read_loop_chunk_by_chunk env [concat_strings values] l s)
    as ((H1' & H2' & _) & Hend').
  cbn [flat_map] in H1', H2'. rewrite app_nil_r in H1', H2'.
  rewrite (process_lines_aligned env values Haligned) in H1, H2.
  subst divided undivided. repeat split; congruence.
Qed.

(** C2, as the handler has it, on the two sample events delivered one per
    chunk. *)
Lemma line_aligned_chunks_decode_as_one_chunk_witness :
  let values :=
    [ "data: " ++ Sample.event_json "Hel" ++ Sample.NL;
      "data: " ++ Sample.event_json "lo" ++ Sample.NL ] in
  let l := {| aiResponseContent := EmptyString; assistantMessageId := None |} in
  let divided :=
    read_loop (Sample.env Sample.refused) (stream_of_texts values) l
      (start Sample.greeting) in
  let undivided :=
    read_loop (Sample.env Sample.refused)
      (stream_of_texts [concat_strings values]) l (start Sample.greeting) in
  ui (fst divided) = ui (fst undivided)
  /\ uuid_calls (fst divided) = uuid_calls (fst undivided)
  /\ snd divided = snd undivided.
Proof.
  refine (line_aligned_chunks_decode_as_one_chunk (Sample.env Sample.refused)
            [ "data: " ++ Sample.event_json "Hel" ++ Sample.NL;
              "data: " ++ Sample.event_json "lo" ++ Sample.NL ]
            {| aiResponseContent := EmptyString; assistantMessageId := None |}
            (start Sample.greeting) _).
  repeat constructor.
  - exists ("data: " ++ Sample.event_json "Hel"). reflexivity.
  - exists ("data: " ++ Sample.event_json "lo"). reflexivity.
Defined.

(** ** The request history *)

(** C3.  The history posted for the prior messages [prior] and the new
    text [newUserText] has one entry per prior message, in the same order,
    an assistant message becoming an entry of role model and a user
    message an entry of role user, each with the content of its message
    unchanged, and then exactly one more entry, of role user, with the new
    text.  On the prior history [{user, hi}] and the new input 2+2? with
    no file attached this is [{user, hi}; {user, 2+2?}], which is also
    what the handler posts. *)
Theorem chatHistory_maps_prior_turns_then_new_text
  (prior : list Message) (newUserText : string) :
  List.length (chatHistory prior newUserText) = S (List.length prior)
  /\ (forall i msg,
        nth_error prior i = Some msg ->
        nth_error (chatHistory prior newUserText) i
        = Some {| Api.role := match role msg with
                              | assistant => Api.model
                              | user => Api.user
                              end;
                  Api.parts := [ {| Api.text := content msg |} ] |})
  /\ nth_error (chatHistory prior newUserText) (List.length prior)
     = Some {| Api.role := Api.user;
               Api.parts := [ {| Api.text := newUserText |} ] |}
  /\ (forall i,
        chatHistory [ {| id := i; role := user; content := "hi" |} ] "2+2?"
        = [ {| Api.role := Api.user; Api.parts := [ {| Api.text := "hi" |} ] |};
            {| Api.role := Api.user; Api.parts := [ {| Api.text := "2+2?" |} ] |} ])
  /\ (let st := {| messages := [ {| id := "7"; role := user; content := "hi" |} ];
                   input := "2+2?"; file := None;
                   isLoading := false; error := None |} in
      posted (fst (handleSendMessage (Sample.env Sample.refused) st (start st))))
     = [ [ {| Api.role := Api.user; Api.parts := [ {| Api.text := "hi" |} ] |};
           {| Api.role := Api.user; Api.parts := [ {| Api.text := "2+2?" |} ] |} ] ].
Proof.
  unfold chatHistory. repeat split.
  - rewrite length_app, length_map. cbn. lia.
  - intros i msg Hi.
    rewrite nth_error_app1.
    + now rewrite nth_error_map, Hi.
    + rewrite length_map. apply nth_error_Some. congruence.
  - rewrite nth_error_app2; rewrite length_map; [|lia].
    now rewrite Nat.sub_diag.
Qed.

(** ** Failures and skipped records *)

(** C4.  When the response has a non-success status or no body, decoding
    throws: the error [response.json()] rejects with, or else the API
    error made of the status and of the message of the error body.  The
    store then holds the message of the user, still there, followed by
    exactly one assistant message that reports the failure; the error is
    shown and the submission is over. *)
Theorem bad_status_appends_one_failure_turn
  (env : Env) (st : State) (pdfText : string) (response : Response) :
  accepted st ->
  extraction env st = inr pdfText ->
  fetch env (chatHistory (messages st) (apiRequestText st pdfText)) = inr response ->
  ok response = false \/ body response = None ->
  let err :=
    match json response with
    | inl rejected => rejected
    | inr errorBody => apiError env response errorBody
    end in
  (forall s, snd (decode_response env response s) = inl err)
  /\ submit env st
     = {| messages :=
            (messages st
             ++ [ userMessage env st;
                  {| id := randomUUID env 1; role := assistant;
                     content := "Sorry, something went wrong: "
                                ++ message_or err "An unknown error occurred." |} ])%list;
          input := EmptyString;
          file := None;
          isLoading := false;
          error := Some (message_or err "An unknown error occurred.") |}.
Proof.
  intros Hacc Hext Hfetch Hbad err. split.
  - intros s. now rewrite (decode_response_bad_status env s response Hbad).
  - exact (submit_bad_status env st pdfText response Hacc Hext Hfetch Hbad).
Qed.

(** C4 on a response with status 400 and an error body. *)
Lemma bad_status_appends_one_failure_turn_witness :
  submit (Sample.env Sample.refused) Sample.greeting
  = {| messages :=
         (messages initialState
          ++ [ {| id := "uuid-0"; role := user; content := "hi" |};
               {| id := "uuid-1"; role := assistant;
                  content := "Sorry, something went wrong: API error: 400 - API key not valid." |} ])%list;
       input := EmptyString;
       file := None;
       isLoading := false;
       error := Some "API error: 400 - API key not valid." |}.
Proof.
  refine (proj2
    (bad_status_appends_one_failure_turn (Sample.env Sample.refused)
       Sample.greeting EmptyString
       {| ok := false; status := 400; body := None;
          json := inr Sample.error_value |} _ _ _ _));
    by_evaluation.
Defined.




(** C6.  When the text of the attached file cannot be extracted, the
    submission stops there: the error is shown, the submission is over,
    and nothing else has happened.  The store, the input and the
    attachment are as they were, no id was drawn for a message, and no
    request was posted. *)
Theorem extraction_failure_aborts
  (env : Env) (st : State) (f : File) (err : JS.Thrown) :
  isLoading st = false ->
  file st = Some f ->
  parsePdf env f = inl err ->
  handleSendMessage env st (start st)
  = ({| ui := {| messages := messages st;
                 input := input st;
                 file := Some f;
                 isLoading := false;
                 error := Some (message_or err "Failed to parse PDF.") |};
        uuid_calls := 0;
        posted := [];
        suspended := [extracting st] |},
     inr tt).
Proof.
  exact (handleSendMessage_extraction_failed env st f err).
Qed.

(** C6 on a file that is not a PDF document. *)
Lemma extraction_failure_aborts_witness :
  handleSendMessage (Sample.env Sample.refused) (Sample.attached Sample.junk)
    (start (Sample.attached Sample.junk))
  = ({| ui := {| messages := messages initialState;
                 input := "  ";
                 file := Some Sample.junk;
                 isLoading := false;
                 error := Some "Invalid PDF structure." |};
        uuid_calls := 0;
        posted := [];
        suspended := [extracting (Sample.attached Sample.junk)] |},
     inr tt).
Proof.
  refine (extraction_failure_aborts (Sample.env Sample.refused)
            (Sample.attached Sample.junk) Sample.junk
            (JS.Error "Invalid PDF structure.") _ _ _); by_evaluation.
Defined.

(** ** The PDF extractor *)

(** C7.  For a document that loads, [parsePdf] gives the texts of the
    pages 1, 2, ... up to the last in that order, the text of a page being
    its fragments joined by single spaces and followed by one line feed;
    and if some page cannot be read, it gives an error and no text at
    all. *)
Theorem extraction_follows_page_order
  (env : Env) (pdfFile : File) (lib : PdfJsLib) (data : list Byte.byte)
  (pdf : PDFDocumentProxy) :
  pdfjsLib env = Some lib ->
  readAsArrayBuffer env pdfFile = onload (Some data) ->
  getDocument lib data = inr pdf ->
  (forall fragments : nat -> list string,
     (forall k, 1 <= k <= numPages pdf -> page_yields pdf k (fragments k)) ->
     parsePdf env pdfFile
     = inr (concat_strings
              (map (fun k => page_text (fragments k)) (seq 1 (numPages pdf)))))
  /\ (forall k,
        1 <= k <= numPages pdf ->
        page_fails pdf k ->
        exists err, parsePdf env pdfFile = inl err).
Proof.
  intros Hlib Hread Hdoc. unfold parsePdf. rewrite Hlib, Hread, Hdoc. split.
  - intros fragments Hpages.
    rewrite (parsePdf_pages_readable pdf fragments); [reflexivity|].
    intros k Hk. apply Hpages. lia.
  - intros k Hk Hfails.
    apply (parsePdf_pages_unreadable pdf k Hfails). lia.
Qed.

(** C7 on a document of two pages, and on one whose second page of three
    cannot be read. *)
Lemma extraction_follows_page_order_witness :
  parsePdf (Sample.env Sample.refused) Sample.letter
  = inr ("Dear reader," ++ Sample.NL ++ "bye." ++ Sample.NL)
  /\ exists err, parsePdf (Sample.env Sample.refused) Sample.damaged = inl err.
Proof.
  split.
  - refine (proj1
      (extraction_follows_page_order (Sample.env Sample.refused) Sample.letter
         Sample.lib [Byte.x01] Sample.two_pages _ _ _)
      (fun k => match k with
                | 1 => ["Dear"; "reader,"]
                | 2 => ["bye."]
                | _ => []
                end) _); try reflexivity.
    intros k Hk.
    assert (k = 1 \/ k = 2) as [-> | ->] by (cbn in Hk; lia);
      (eexists; eexists; repeat split; reflexivity).
  - refine (proj2
      (extraction_follows_page_order (Sample.env Sample.refused) Sample.damaged
         Sample.lib [Byte.x02] Sample.broken_page _ _ _) 2 _ _);
      try reflexivity.
    + cbn. lia.
    + right. eexists. eexists. split; reflexivity.
Defined.

(** ** One submission at a time *)




(** ** What is shown and what is sent *)

(** C9.  When nothing but white space is typed and a file is attached
    whose text can be extracted, the message of the user that the
    submission appends reads File uploaded: and the name of the file, so
    it is not empty, and it stays in the store to the end; the text
    posted for the turn is another one: empty if the extracted text is
    empty, and else a header naming the file followed by the extracted
    text. *)
Theorem file_only_submission_shows_the_file_name
  (env : Env) (st : State) (f : File) (pdfText : string) :
  isLoading st = false ->
  JS.trim (input st) = EmptyString ->
  file st = Some f ->
  parsePdf env f = inr pdfText ->
  fresh_id (randomUUID env 1) (messages st ++ [userMessage env st]) ->
  let shownText := "File uploaded: " ++ name f in
  let postedText :=
    match pdfText with
    | EmptyString => EmptyString
    | _ => String JS.LF (String JS.LF "--- Content from ") ++ name f
           ++ " ---" ++ String JS.LF pdfText
    end in
  shownText <> EmptyString
  /\ (exists rest,
        messages (submit env st)
        = (messages st
           ++ {| id := randomUUID env 0; role := user; content := shownText |}
              :: rest)%list)
  /\ posted (fst (handleSendMessage env st (start st)))
     = [chatHistory (messages st) postedText].
Proof.
  intros Hidle Hblank Hfile Hparse Hfresh shownText postedText.
  assert (Hacc : accepted st).
  { split; [exact Hidle|]. right. now rewrite Hfile. }
  assert (Hext : extraction env st = inr pdfText).
  { unfold extraction. now rewrite Hfile. }
  assert (Huser : userMessage env st
                  = {| id := randomUUID env 0; role := user; content := shownText |}).
  { unfold userMessage, userMessage_content. now rewrite Hblank, Hfile. }
  assert (Htext : apiRequestText st pdfText = postedText).
  { unfold apiRequestText, postedText. rewrite Hblank, Hfile.
    now destruct pdfText. }
  split; [discriminate|]. split.
  - rewrite <- Huser.
    destruct (fetch env (chatHistory (messages st) (apiRequestText st pdfText)))
      as [err|response] eqn:Hfetch.
    { rewrite (submit_fetch_rejected env st pdfText err Hacc Hext Hfetch).
      eexists. reflexivity. }
    destruct (ok response) eqn:Hok; [destruct (body response) as [reader|] eqn:Hbody|].
    + destruct (handleSendMessage_streamed env st pdfText response reader
                  Hacc Hext Hfetch Hok Hbody (fun _ => Hfresh)) as (Hui & _).
      unfold submit. rewrite Hui. eexists. reflexivity.
    + rewrite (submit_bad_status env st pdfText response Hacc Hext Hfetch);
        [|now right].
      eexists. reflexivity.
    + rewrite (submit_bad_status env st pdfText response Hacc Hext Hfetch);
        [|now left].
      eexists. reflexivity.
  - rewrite <- Htext.
    now destruct (handleSendMessage_steady env st pdfText Hacc Hext) as (Hp & _).
Qed.

(** C9 on the sample letter, sent with nothing typed. *)
Lemma file_only_submission_shows_the_file_name_witness :
  (exists rest,
     messages
       (submit (Sample.env (Sample.streaming (stream_of Sample.hello_chunks)))
          (Sample.attached Sample.letter))
     = (messages initialState
        ++ {| id := "uuid-0"; role := user;
              content := "File uploaded: letter.pdf" |} :: rest)%list)
  /\ posted
       (fst (handleSendMessage
               (Sample.env (Sample.streaming (stream_of Sample.hello_chunks)))
               (Sample.attached Sample.letter)
               (start (Sample.attached Sample.letter))))
     = [chatHistory (messages initialState)
          (Sample.NL ++ Sample.NL ++ "--- Content from letter.pdf ---" ++ Sample.NL
           ++ "Dear reader," ++ Sample.NL ++ "bye." ++ Sample.NL)].
Proof.
  refine (proj2
    (file_only_submission_shows_the_file_name
       (Sample.env (Sample.streaming (stream_of Sample.hello_chunks)))
       (Sample.attached Sample.letter) Sample.letter
       ("Dear reader," ++ Sample.NL ++ "bye." ++ Sample.NL) _ _ _ _ _));
    by_evaluation.
Defined.

(** C10 as stated fails on a record whose text part is truthy without
    being a non-empty text fragment.  The text part of the sample event
    is an empty array: the test [if (textPart)] lets it through, its
    string form is the empty string, and the store gets an assistant
    message with an empty content. *)
Lemma array_text_part_creates_an_empty_turn :
  textPart_of Sample.array_value = inr (Some (JS.Arr []))
  /\ submit
       (Sample.env_with_array
          (Sample.streaming
             (stream_of_texts [ "data: " ++ Sample.array_json ++ Sample.NL ])))
       Sample.greeting
     = {| messages :=
            (messages initialState
             ++ [ {| id := "uuid-0"; role := user; content := "hi" |};
                  {| id := "uuid-1"; role := assistant; content := EmptyString |} ])%list;
          input := EmptyString;
          file := None;
          isLoading := false;
          error := None |}.
Proof. repeat split. Qed.

(** C10, as the handler has it.  For every stream that is read to its end,
    whatever its chunks are, and in which no line of a chunk, each chunk
    being split into lines on its own, is a data record with a truthy
    text part (metadata records, records that do not parse, heartbeats,
    other lines, or no chunk at all), no assistant message is created:
    the store holds the message of the user and nothing more, no error is
    shown, and the submission is over.  A text part that is truthy counts
    whatever its type: the handler appends its string form. *)
Theorem stream_without_text_parts_adds_nothing
  (env : Env) (st : State) (pdfText : string) (response : Response)
  (reader : ReadableStream) :
  accepted st ->
  extraction env st = inr pdfText ->
  fetch env (chatHistory (messages st) (apiRequestText st pdfText)) = inr response ->
  ok response = true ->
  body response = Some reader ->
  stream_end reader = inr tt ->
  stream_textParts env reader = [] ->
  submit env st
  = {| messages := (messages st ++ [userMessage env st])%list;
       input := EmptyString;
       file := None;
       isLoading := false;
       error := None |}.
Proof.
  intros Hacc Hext Hfetch Hok Hbody Hend Hparts.
  destruct (handleSendMessage_streamed env st pdfText response reader
              Hacc Hext Hfetch Hok Hbody) as (Hui & _).
  { intros Hne. now rewrite Hparts in Hne. }
  rewrite Hparts, Hend in Hui. unfold submit. rewrite Hui. reflexivity.
Qed.

(** C10, as the handler has it, on a response with a metadata record, a
    heartbeat and a comment line. *)
Lemma stream_without_text_parts_adds_nothing_witness :
  submit (Sample.env (Sample.streaming (stream_of Sample.quiet_chunks)))
    Sample.greeting
  = {| messages :=
         (messages initialState
          ++ [ {| id := "uuid-0"; role := user; content := "hi" |} ])%list;
       input := EmptyString;
       file := None;
       isLoading := false;
       error := None |}.
Proof.
  refine (stream_without_text_parts_adds_nothing
            (Sample.env (Sample.streaming (stream_of Sample.quiet_chunks)))
            Sample.greeting EmptyString
            {| ok := true; status := 200;
               body := Some (stream_of Sample.quiet_chunks);
               json := inl (JS.Error "body stream already read") |}
            (stream_of Sample.quiet_chunks) _ _ _ _ _ _ _); by_evaluation.
Defined.

(** * Further properties of the page *)

(** ** The store under any response *)

Lemma Forall2_compose {A : Type} (R S T : A -> A -> Prop) :
  (forall a b c, R a b -> S b c -> T a c) ->
  forall l1 l2 l3, Forall2 R l1 l2 -> Forall2 S l2 l3 -> Forall2 T l1 l3.
Proof.
  intros Hcomp l1 l2 l3 H12. revert l3.
  induction H12 as [|a b l1 l2 Hab _ IH]; intros l3 H23;
    inversion H23; subst; constructor; eauto.
Qed.

Lemma Forall2_refl {A : Type} (R : A -> A -> Prop) :
  (forall a, R a a) -> forall l, Forall2 R l l.
Proof. intros Hrefl l. induction l; constructor; auto. Qed.

Section Store_facts.

Variable env : Env.

Lemma same_slot_refl (n : nat) (m : Message) : same_slot env n m m.
Proof. repeat split. now left. Qed.

Lemma same_slot_trans (n : nat) (m1 m2 m3 : Message) :
  same_slot env n m1 m2 -> same_slot env n m2 m3 -> same_slot env n m1 m3.
Proof.
  intros (Hid & Hrole & Hc) (Hid' & Hrole' & Hc').
  repeat split; try congruence.
  destruct Hc as [Hc|Hc]; [|now right].
  destruct Hc' as [Hc'|(k & Hk & E)]; [left; congruence|].
  right. exists k. split; [exact Hk|congruence].
Qed.

Lemma same_slot_ids (n : nat) (l l' : list Message) :
  Forall2 (same_slot env n) l l' -> map id l' = map id l.
Proof.
  induction 1 as [|m m' l l' (Hid & _) _ IH]; cbn; [reflexivity|].
  now rewrite Hid, IH.
Qed.

Lemma same_slot_roles (n : nat) (l l' : list Message) :
  Forall2 (same_slot env n) l l' -> map role l' = map role l.
Proof.
  induction 1 as [|m m' l l' (_ & Hrole & _) _ IH]; cbn; [reflexivity|].
  now rewrite Hrole, IH.
Qed.

Lemma appends_refl (n : nat) (s : Sys) : appends env n s s.
Proof.
  repeat split. exists (messages (ui s)), []. repeat split.
  - now rewrite app_nil_r.
  - apply Forall2_refl, same_slot_refl.
  - cbn. lia.
Qed.

Lemma appends_same_ui (n : nat) (s s' : Sys) :
  ui s' = ui s -> uuid_calls s' = uuid_calls s -> appends env n s s'.
Proof.
  intros Hui Hn. unfold appends. rewrite Hui, Hn. apply (appends_refl n s).
Qed.

Lemma appends_trans (n : nat) (s1 s2 s3 : Sys) :
  appends env n s1 s2 -> appends env n s2 s3 -> appends env n s1 s3.
Proof.
  intros (Hi & Hf & Hb & o1 & a1 & Hm & Ho & Ha & Hn)
         (Hi' & Hf' & Hb' & o2 & a2 & Hm' & Ho' & Ha' & Hn').
  repeat split; try congruence.
  rewrite Hm in Ho'.
  apply Forall2_app_inv_l in Ho' as (o2a & o2b & Hoa & Hob & ->).
  exists o2a, (o2b ++ a2)%list. repeat split.
  - now rewrite Hm', app_assoc.
  - eapply Forall2_compose; [|exact Ho|exact Hoa].
    intros a b c. apply same_slot_trans.
  - rewrite map_app, (same_slot_ids n _ _ Hob), Ha, Ha', Hn.
    rewrite length_app, (Forall2_length Hob), seq_app, map_app.
    reflexivity.
  - rewrite length_app, <- (Forall2_length Hob). lia.
Qed.

(** A text part is applied by appending a message under a drawn id or by
    changing the content of the messages that have the id of the
    assistant message. *)
Lemma apply_textPart_appends (n : nat) (v : JS.Value) (l : Locals) (s : Sys) :
  n <= uuid_calls s ->
  drawn_since env n l ->
  appends env n s (fst (apply_textPart env v l s))
  /\ error (ui (fst (apply_textPart env v l s))) = error (ui s)
  /\ exists l', snd (apply_textPart env v l s) = inr l' /\ drawn_since env n l'.
Proof.
  intros Hn Hdrawn. unfold apply_textPart, drawn_since in *.
  destruct (assistantMessageId l) as [i|] eqn:Hid;
    [destruct (JS.truthy_string i)|]; run_handler.
  - destruct Hdrawn as (k & Hk & ->). repeat split.
    + eexists _, []. repeat split.
      * now rewrite app_nil_r.
      * induction (messages (ui s)) as [|m ms IH]; cbn; constructor; [|exact IH].
        destruct (String.eqb_spec (id m) (randomUUID env k)) as [E|_];
          [|apply same_slot_refl].
        repeat split. right. eauto.
      * cbn. lia.
    + eexists. split; [reflexivity|]. cbn. eauto.
  - repeat split.
    + eexists (messages (ui s)), [_]. repeat split.
      * apply Forall2_refl, same_slot_refl.
      * cbn. lia.
    + eexists. split; [reflexivity|]. cbn. eauto.
  - repeat split.
    + eexists (messages (ui s)), [_]. repeat split.
      * apply Forall2_refl, same_slot_refl.
      * cbn. lia.
    + eexists. split; [reflexivity|]. cbn. eauto.
Qed.

Lemma appends_uuid_calls (n : nat) (s s' : Sys) :
  appends env n s s' -> uuid_calls s <= uuid_calls s'.
Proof. intros (_ & _ & _ & olds & added & _ & _ & _ & ->). lia. Qed.

Lemma process_lines_appends (n : nat) (lines : list string) :
  forall l s,
  n <= uuid_calls s ->
  drawn_since env n l ->
  appends env n s (fst (process_lines env lines l s))
  /\ error (ui (fst (process_lines env lines l s))) = error (ui s)
  /\ suspended (fst (process_lines env lines l s)) = suspended s
  /\ posted (fst (process_lines env lines l s)) = posted s
  /\ exists l', snd (process_lines env lines l s) = inr l' /\ drawn_since env n l'.
Proof.
  induction lines as [|line lines IH]; intros l s Hn Hdrawn; cbn.
  - split; [apply appends_refl|]. repeat split. eauto.
  - unfold bind. rewrite process_line_textPart.
    destruct (line_textPart env line) as [|v _]; [now apply IH|].
    destruct (apply_textPart_appends n v l s Hn Hdrawn)
      as (Happ & Herr & l1 & Hres & Hdrawn1).
    assert (Hsame : suspended (fst (apply_textPart env v l s)) = suspended s
                    /\ posted (fst (apply_textPart env v l s)) = posted s).
    { unfold apply_textPart.
      destruct (assistantMessageId l) as [i|]; [destruct (JS.truthy_string i)|];
        run_handler; now split. }
    destruct (apply_textPart env v l s) as [s1 r1]. cbn in *. subst r1.
    destruct (IH l1 s1) as (Happ' & Herr' & Hsusp' & Hposted' & Hl');
      [pose proof (appends_uuid_calls n s s1 Happ); lia|exact Hdrawn1|].
    destruct Hsame as (Hsusp & Hposted).
    split; [eapply appends_trans; eassumption|].
    repeat split; try congruence; exact Hl'.
Qed.

(** The read loop ends as the stream does, whatever the chunks hold, and
    on the way it only appends to the store or changes the assistant
    message. *)
Lemma read_loop_appends (n : nat) (reader : ReadableStream) :
  forall l s,
  n <= uuid_calls s ->
  drawn_since env n l ->
  appends env n s (fst (read_loop env reader l s))
  /\ error (ui (fst (read_loop env reader l s))) = error (ui s)
  /\ snd (read_loop env reader l s) = stream_end reader.
Proof.
  induction reader as [|value rest IH|err]; intros l s Hn Hdrawn; cbn.
  - split; [now apply appends_same_ui|now split].
  - unfold bind, await. cbv beta iota.
    set (s1 := {| ui := ui s; uuid_calls := uuid_calls s; posted := posted s;
                  suspended := (suspended s ++ [ui s])%list |}).
    destruct (process_lines_appends n (JS.split_LF value) l s1 Hn Hdrawn)
      as (Happ & Herr & _ & _ & l1 & Hres & Hdrawn1).
    destruct (process_lines env (JS.split_LF value) l s1) as [s2 r2].
    cbn in *. subst r2.
    destruct (IH l1 s2) as (Happ' & Herr' & Hres');
      [pose proof (appends_uuid_calls n s1 s2 Happ); cbn in *; lia
      |exact Hdrawn1|].
    split; [|split; congruence].
    eapply appends_trans; [|exact Happ'].
    eapply appends_trans; [|exact Happ].
    now apply appends_same_ui.
  - split; [now apply appends_same_ui|now split].
Qed.

Lemma decode_response_appends (response : Response) (s : Sys) :
  appends env (uuid_calls s) s (fst (decode_response env response s))
  /\ error (ui (fst (decode_response env response s))) = error (ui s)
  /\ snd (decode_response env response s) = response_result env response.
Proof.
  unfold decode_response, response_result.
  destruct (ok response); [destruct (body response) as [reader|]|].
  - apply read_loop_appends; [lia|exact I].
  - run_handler. destruct (json response); cbn;
      (split; [now apply appends_same_ui|now split]).
  - run_handler. destruct (json response); cbn;
      (split; [now apply appends_same_ui|now split]).
Qed.

End Store_facts.

(** ** The ways of a submission *)

Section Submission_facts.

Variable env : Env.

(** A submission is turned down at the door, or stops at the extraction,
    or posts its request. *)
Lemma handleSendMessage_cases (st : State) :
  handleSendMessage env st (start st) = (start st, inr tt)
  \/ (exists f err,
        isLoading st = false /\ file st = Some f /\ parsePdf env f = inl err)
  \/ (exists pdfText, accepted st /\ extraction env st = inr pdfText).
Proof.
  destruct (isLoading st) eqn:Hidle.
  { left. now apply handleSendMessage_busy. }
  destruct (file st) as [f|] eqn:Hfile.
  - destruct (parsePdf env f) as [err|pdfText] eqn:Hparse.
    + right; left. now exists f, err.
    + right; right. exists pdfText. split.
      * split; [exact Hidle|]. right. now rewrite Hfile.
      * unfold extraction. now rewrite Hfile.
  - destruct (String.eqb_spec (JS.trim (input st)) EmptyString) as [Hblank|Htext].
    + left. unfold handleSendMessage. cbn [start ui].
      now rewrite Hblank, Hfile.
    + right; right. exists EmptyString. split.
      * split; [exact Hidle|now left].
      * unfold extraction. now rewrite Hfile.
Qed.

(** The [catch] block in closed form. *)
Lemma on_failure_run (err : JS.Thrown) (s : Sys) :
  on_failure env err s
  = ({| ui := {| messages :=
                   (messages (ui s)
                    ++ [failure_turn (randomUUID env (uuid_calls s)) err])%list;
                 input := input (ui s);
                 file := file (ui s);
                 isLoading := isLoading (ui s);
                 error := Some (message_or err "An unknown error occurred.") |};
        uuid_calls := S (uuid_calls s);
        posted := posted s;
        suspended := suspended s |},
     inr tt).
Proof. reflexivity. Qed.

(** The [try] block: whatever the response holds, it only appends to the
    store or changes the assistant message, it leaves the error cell
    alone, and it ends as the transport does. *)
Lemma try_block_appends (contents : list Api.Content) (s : Sys) :
  let try_block :=
    match fetch env contents with
    | inl err => throw err
    | inr response => decode_response env response
    end in
  appends env (uuid_calls s) s (fst (try_block s))
  /\ error (ui (fst (try_block s))) = error (ui s)
  /\ snd (try_block s) = transport_result env contents.
Proof.
  unfold transport_result. destruct (fetch env contents) as [err|response]; cbn.
  - split; [apply appends_refl|now split].
  - apply decode_response_appends.
Qed.

(** An accepted submission whose extraction step succeeds, in closed form
    over the store [s1] that decoding leaves. *)
Lemma submission_outcome (st : State) (pdfText : string) :
  accepted st ->
  extraction env st = inr pdfText ->
  let result :=
    transport_result env (chatHistory (messages st) (apiRequestText st pdfText)) in
  let s' := fst (handleSendMessage env st (start st)) in
  exists s1,
    appends env 1 (dispatched env st pdfText) s1
    /\ ui s' =
       {| messages :=
            (messages (ui s1)
             ++ match result with
                | inr _ => []
                | inl err => [failure_turn (randomUUID env (uuid_calls s1)) err]
                end)%list;
          input := EmptyString;
          file := None;
          isLoading := false;
          error := match result with
                   | inr _ => None
                   | inl err => Some (message_or err "An unknown error occurred.")
                   end |}
    /\ uuid_calls s' =
       uuid_calls s1 + match result with inr _ => 0 | inl _ => 1 end.
Proof.
  intros Hacc Hext result s'. subst s'.
  rewrite (handleSendMessage_accepted env st pdfText Hacc Hext).
  destruct (try_block_appends
              (chatHistory (messages st) (apiRequestText st pdfText))
              (dispatched env st pdfText)) as (Happ & Herr & Hres).
  cbv zeta in Happ, Herr, Hres. fold result in Hres.
  unfold try_finally, try_catch.
  destruct (match fetch env _ with
            | inl err => throw err
            | inr response => decode_response env response
            end (dispatched env st pdfText)) as [s1 r] eqn:Htry.
  cbn [fst snd] in *. subst r. exists s1. split; [exact Happ|].
  destruct Happ as (Hinput & Hfile & _ & _).
  cbn in Hinput, Hfile, Herr.
  destruct result as [err|[]].
  - rewrite on_failure_run. cbn. rewrite Hinput, Hfile. split; [reflexivity|lia].
  - cbn. rewrite Hinput, Hfile, Herr, app_nil_r. split; [reflexivity|lia].
Qed.

(** The ids of the store after a submission: those before it, then the
    ids drawn, in the order of drawing. *)
Lemma submission_ids (st : State) :
  let s' := fst (handleSendMessage env st (start st)) in
  map id (messages (ui s'))
  = (map id (messages st) ++ map (randomUUID env) (seq 0 (uuid_calls s')))%list
  /\ exists roles,
       map role (messages (ui s')) = (map role (messages st) ++ roles)%list.
Proof.
  intros s'. subst s'.
  destruct (handleSendMessage_cases st)
    as [E|[(f & err & Hidle & Hfile & Hparse)|(pdfText & Hacc & Hext)]].
  - rewrite E. cbn. rewrite app_nil_r. split; [reflexivity|].
    exists []. now rewrite app_nil_r.
  - rewrite (handleSendMessage_extraction_failed env st f err Hidle Hfile Hparse).
    cbn. rewrite app_nil_r. split; [reflexivity|].
    exists []. now rewrite app_nil_r.
  - destruct (submission_outcome st pdfText Hacc Hext)
      as (s1 & (_ & _ & _ & olds & added & Hm & Hslots & Hids & Hn) & Hui & Hcalls).
    cbn [dispatched ui uuid_calls awaiting_response messages] in Hslots, Hids, Hn.
    rewrite Hui, Hcalls. cbn [messages]. rewrite Hm, Hn.
    split.
    + rewrite !map_app, (same_slot_ids env 1 _ _ Hslots), Hids, map_app.
      cbn [map userMessage id].
      rewrite <- !app_assoc. f_equal.
      destruct (transport_result env _) as [err|[]]; cbn [map failure_turn id].
      * replace (1 + List.length added + 1)
          with (1 + (List.length added + 1)) by lia.
        rewrite !seq_app, !map_app. cbn. reflexivity.
      * rewrite Nat.add_0_r, app_nil_r, seq_app, map_app. cbn. reflexivity.
    + apply same_slot_roles in Hslots. rewrite map_app in Hslots.
      rewrite !map_app, Hslots, <- !app_assoc. eexists. reflexivity.
Qed.

End Submission_facts.

(** ** What every submission does to the store *)

Lemma NoDup_map_seq {A : Type} (f : nat -> A) (start len : nat) :
  (forall j k, f j = f k -> j = k) -> NoDup (map f (seq start len)).
Proof.
  intros Hinj. revert start.
  induction len as [|len IH]; intros start; cbn; constructor; [|apply IH].
  rewrite in_map_iff. intros (k & E & Hin).
  apply Hinj in E. subst k. apply in_seq in Hin. lia.
Qed.

(** X2.  The ids of the store stay unique: if they are pairwise distinct
    before a submission, [crypto.randomUUID] never returns the same id
    twice and never one that is in the store, then they are pairwise
    distinct after it. *)
Theorem submission_keeps_ids_unique (env : Env) (st : State) :
  NoDup (map id (messages st)) ->
  (forall j k, randomUUID env j = randomUUID env k -> j = k) ->
  (forall k, ~ In (randomUUID env k) (map id (messages st))) ->
  NoDup (map id (messages (submit env st))).
Proof.
  intros Hnodup Hinj Hfresh.
  destruct (submission_ids env st) as (Hids & _).
  unfold submit. rewrite Hids.
  apply NoDup_app; [exact Hnodup|now apply NoDup_map_seq|].
  intros i Hin Hin'. apply in_map_iff in Hin' as (k & <- & _).
  now apply (Hfresh k).
Qed.

Lemma sample_randomUUID_inj (outcome : JS.Result Response) (j k : nat) :
  randomUUID (Sample.env outcome) j = randomUUID (Sample.env outcome) k -> j = k.
Proof.
  cbn. unfold JS.nat_toString. intros E. injection E as E.
  apply Unsigned.to_uint_inj.
  pose proof (NilEmpty.usu (Nat.to_uint j)) as Hj.
  pose proof (NilEmpty.usu (Nat.to_uint k)) as Hk.
  rewrite E in Hj. congruence.
Qed.

(** X2 on the sample submission. *)
Lemma submission_keeps_ids_unique_witness :
  NoDup
    (map id
       (messages
          (submit (Sample.env (Sample.streaming (stream_of Sample.hello_chunks)))
             Sample.greeting))).
Proof.
  apply (submission_keeps_ids_unique
           (Sample.env (Sample.streaming (stream_of Sample.hello_chunks)))
           Sample.greeting).
  - repeat constructor. intros [].
  - apply sample_randomUUID_inj.
  - intros k [E|[]]. discriminate E.
Defined.

Lemma same_slot_unchanged (env : Env) (n : nat) (l l' : list Message) :
  Forall2 (same_slot env n) l l' ->
  (forall k, n <= k -> ~ In (randomUUID env k) (map id l)) ->
  l' = l.
Proof.
  induction 1 as [|m m' l l' (Hid & Hrole & Hcontent) _ IH]; intros Hfresh;
    [reflexivity|].
  rewrite IH.
  - f_equal. destruct Hcontent as [Hcontent|(k & Hk & E)].
    + destruct m, m'; cbn in *. congruence.
    + exfalso. apply (Hfresh k Hk). left. now symmetry.
  - intros k Hk Hin. apply (Hfresh k Hk). now right.
Qed.

(** X3.  The store is append-only across a submission: if no id drawn
    after the one of the user message is the id of a message already in
    the store, then every message of the store is still there afterwards,
    unchanged and in its place, whatever the response holds and however
    the submission ends; what is new comes after. *)
Theorem submission_only_appends (env : Env) (st : State) :
  (forall k, 1 <= k -> ~ In (randomUUID env k) (map id (messages st))) ->
  exists added, messages (submit env st) = (messages st ++ added)%list.
Proof.
  intros Hfresh. unfold submit.
  destruct (handleSendMessage_cases env st)
    as [E|[(f & err & Hidle & Hfile & Hparse)|(pdfText & Hacc & Hext)]].
  - rewrite E. exists []. cbn. now rewrite app_nil_r.
  - rewrite (handleSendMessage_extraction_failed env st f err Hidle Hfile Hparse).
    exists []. cbn. now rewrite app_nil_r.
  - destruct (submission_outcome env st pdfText Hacc Hext)
      as (s1 & (_ & _ & _ & olds & added & Hm & Hslots & _) & Hui & _).
    cbn [dispatched ui awaiting_response messages] in Hslots.
    apply Forall2_app_inv_l in Hslots as (kept & user' & Hkept & _ & ->).
    rewrite (same_slot_unchanged env 1 _ _ Hkept Hfresh) in Hm.
    rewrite Hui. cbn [messages]. rewrite Hm, <- !app_assoc.
    eexists. reflexivity.
Qed.

(** X3 on the sample submission. *)
Lemma submission_only_appends_witness :
  exists added,
    messages
      (submit (Sample.env (Sample.streaming (stream_of Sample.garbled_chunks)))
         Sample.greeting)
    = (messages Sample.greeting ++ added)%list.
Proof.
  apply (submission_only_appends
           (Sample.env (Sample.streaming (stream_of Sample.garbled_chunks)))
           Sample.greeting).
  intros k _ [E|[]]. discriminate E.
Defined.

(** ** How a submission ends *)

(** X4.  A submission made while the page is idle leaves the page idle,
    and it posts at most one request.  If it posts none (there was
    nothing to send, or the text of the file could not be extracted), the
    store, the input and the attachment are kept as they were; if it posts
    one, the input is cleared and the attachment removed, whatever the
    response. *)
Theorem submission_ends_idle_and_clears_the_form_once_posted
  (env : Env) (st : State) :
  isLoading st = false ->
  let s' := fst (handleSendMessage env st (start st)) in
  isLoading (submit env st) = false
  /\ ((posted s' = []
       /\ messages (submit env st) = messages st
       /\ input (submit env st) = input st
       /\ file (submit env st) = file st)
      \/ (exists pdfText,
            extraction env st = inr pdfText
            /\ posted s' = [chatHistory (messages st) (apiRequestText st pdfText)]
            /\ input (submit env st) = EmptyString
            /\ file (submit env st) = None)).
Proof.
  intros Hidle s'. subst s'. unfold submit.
  destruct (handleSendMessage_cases env st)
    as [E|[(f & err & _ & Hfile & Hparse)|(pdfText & Hacc & Hext)]].
  - rewrite E. cbn. split; [exact Hidle|]. left. now repeat split.
  - rewrite (handleSendMessage_extraction_failed env st f err Hidle Hfile Hparse).
    cbn. split; [reflexivity|]. left. now repeat split.
  - destruct (submission_outcome env st pdfText Hacc Hext) as (s1 & _ & Hui & _).
    destruct (handleSendMessage_steady env st pdfText Hacc Hext) as (Hposted & _).
    rewrite Hui. cbn. split; [reflexivity|]. right.
    exists pdfText. now repeat split.
Qed.

(** X4 on the sample submission, which posts its request. *)
Lemma submission_ends_idle_and_clears_the_form_once_posted_witness :
  isLoading (submit (Sample.env Sample.refused) Sample.greeting) = false.
Proof.
  refine (proj1
    (submission_ends_idle_and_clears_the_form_once_posted
       (Sample.env Sample.refused) Sample.greeting _)).
  reflexivity.
Defined.

(** X5.  Once the request is posted, an error is shown exactly when the
    transport fails: [fetch] rejects, the response is no success with a
    body, or reading the body fails.  Then the store ends with a message
    that reports the failure.  Nothing that the chunks hold (malformed
    records, cut lines, unknown lines) makes a submission fail. *)
Theorem error_is_shown_exactly_when_the_transport_fails
  (env : Env) (st : State) (pdfText : string) :
  accepted st ->
  extraction env st = inr pdfText ->
  let result :=
    transport_result env (chatHistory (messages st) (apiRequestText st pdfText)) in
  error (submit env st)
  = match result with
    | inr _ => None
    | inl err => Some (message_or err "An unknown error occurred.")
    end
  /\ (forall err,
        result = inl err ->
        exists front i,
          messages (submit env st) = (front ++ [failure_turn i err])%list).
Proof.
  intros Hacc Hext result.
  destruct (submission_outcome env st pdfText Hacc Hext) as (s1 & _ & Hui & _).
  fold result in Hui. unfold submit. rewrite Hui. cbn [error messages].
  split; [reflexivity|].
  intros err ->. eexists _, _. reflexivity.
Qed.

(** X5 on a response that streams text with a record cut short in it: no
    error. *)
Lemma error_is_shown_exactly_when_the_transport_fails_witness :
  error
    (submit (Sample.env (Sample.streaming (stream_of Sample.garbled_chunks)))
       Sample.greeting)
  = None.
Proof.
  refine (proj1
    (error_is_shown_exactly_when_the_transport_fails
       (Sample.env (Sample.streaming (stream_of Sample.garbled_chunks)))
       Sample.greeting EmptyString _ _)); by_evaluation.
Defined.

(** X6.  When [fetch] itself rejects, the message of the user stays in
    the store, followed by exactly one assistant message that reports the
    failure; the error shown is the message of the rejection if it is an
    Error, and [An unknown error occurred.] otherwise; the form is
    cleared and the page idle. *)
Theorem fetch_rejection_is_reported
  (env : Env) (st : State) (pdfText : string) (err : JS.Thrown) :
  accepted st ->
  extraction env st = inr pdfText ->
  fetch env (chatHistory (messages st) (apiRequestText st pdfText)) = inl err ->
  let errorMessage :=
    match err with
    | JS.Error message => message
    | JS.NotAnError => "An unknown error occurred."
    end in
  submit env st
  = {| messages :=
         (messages st
          ++ [ userMessage env st;
               {| id := randomUUID env 1; role := assistant;
                  content := "Sorry, something went wrong: " ++ errorMessage |} ])%list;
       input := EmptyString;
       file := None;
       isLoading := false;
       error := Some errorMessage |}.
Proof.
  intros Hacc Hext Hfetch errorMessage.
  rewrite (submit_fetch_rejected env st pdfText err Hacc Hext Hfetch).
  reflexivity.
Qed.

(** X6 on a rejection that is no Error. *)
Lemma fetch_rejection_is_reported_witness :
  submit (Sample.env (inl JS.NotAnError)) Sample.greeting
  = {| messages :=
         (messages initialState
          ++ [ {| id := "uuid-0"; role := user; content := "hi" |};
               {| id := "uuid-1"; role := assistant;
                  content := "Sorry, something went wrong: An unknown error occurred." |} ])%list;
       input := EmptyString;
       file := None;
       isLoading := false;
       error := Some "An unknown error occurred." |}.
Proof.
  refine (fetch_rejection_is_reported (Sample.env (inl JS.NotAnError))
            Sample.greeting EmptyString JS.NotAnError _ _ _); by_evaluation.
Defined.

Section Failing_stream_facts.

Variable env : Env.

Lemma stream_end_failing (values : list string) (err : JS.Thrown) :
  stream_end (failing_stream values err) = inl err.
Proof. induction values; cbn; auto. Qed.

Lemma stream_textParts_failing (chunks : list (list Line)) (err : JS.Thrown) :
  Forall (Forall (line_wf env)) chunks ->
  stream_textParts env (failing_stream (map chunk_text chunks) err)
  = map JS.Str (stream_fragments chunks).
Proof.
  unfold stream_fragments, failing_stream.
  induction 1 as [|c chunks Hc _ IH];
    cbn [map fold_right stream_textParts flat_map]; [reflexivity|].
  now rewrite (chunk_textParts_wf env c Hc), IH, map_app.
Qed.

End Failing_stream_facts.

(** X7.  When reading the body fails after some whole lines have arrived,
    what the assistant has said so far is kept: the store holds the
    message of the user, then the assistant message with the fragments
    delivered before the failure (if there were any), then one more
    assistant message that reports the failure.  The error is shown and
    the page is idle. *)
Theorem read_failure_keeps_the_partial_reply
  (env : Env) (st : State) (pdfText : string) (response : Response)
  (chunks : list (list Line)) (err : JS.Thrown) :
  accepted st ->
  extraction env st = inr pdfText ->
  fetch env (chatHistory (messages st) (apiRequestText st pdfText)) = inr response ->
  ok response = true ->
  body response = Some (failing_stream (map chunk_text chunks) err) ->
  Forall (Forall (line_wf env)) chunks ->
  fresh_id (randomUUID env 1) (messages st ++ [userMessage env st]) ->
  let errorMessage := message_or err "An unknown error occurred." in
  submit env st
  = {| messages :=
         (messages st ++ [userMessage env st]
          ++ match stream_fragments chunks with
             | [] =>
                 [ {| id := randomUUID env 1; role := assistant;
                      content := "Sorry, something went wrong: " ++ errorMessage |} ]
             | fragments =>
                 [ {| id := randomUUID env 1; role := assistant;
                      content := concat_strings fragments |};
                   {| id := randomUUID env 2; role := assistant;
                      content := "Sorry, something went wrong: " ++ errorMessage |} ]
             end)%list;
       input := EmptyString;
       file := None;
       isLoading := false;
       error := Some errorMessage |}.
Proof.
  intros Hacc Hext Hfetch Hok Hbody Hwf Hfresh errorMessage.
  destruct (handleSendMessage_streamed env st pdfText response _
              Hacc Hext Hfetch Hok Hbody (fun _ => Hfresh)) as (Hui & _).
  rewrite (stream_textParts_failing env chunks err Hwf),
    stream_end_failing in Hui.
  unfold submit. rewrite Hui.
  destruct (stream_fragments chunks) as [|f fs] eqn:E; [reflexivity|].
  rewrite (assistant_turn_Str env _ (f :: fs)) by discriminate.
  reflexivity.
Qed.

(** X7 on a body that fails after the first sample chunk. *)
Lemma read_failure_keeps_the_partial_reply_witness :
  submit
    (Sample.env
       (Sample.streaming
          (failing_stream
             (map chunk_text
                [ [ fragment_record (Sample.event_json "Hel")
                      (Sample.event_value "Hel") "Hel" ] ])
             (JS.Error "network error"))))
    Sample.greeting
  = {| messages :=
         (messages initialState
          ++ [ {| id := "uuid-0"; role := user; content := "hi" |};
               {| id := "uuid-1"; role := assistant; content := "Hel" |};
               {| id := "uuid-2"; role := assistant;
                  content := "Sorry, something went wrong: network error" |} ])%list;
       input := EmptyString;
       file := None;
       isLoading := false;
       error := Some "network error" |}.
Proof.
  refine (read_failure_keeps_the_partial_reply
            (Sample.env
               (Sample.streaming
                  (failing_stream
                     (map chunk_text
                        [ [ fragment_record (Sample.event_json "Hel")
                              (Sample.event_value "Hel") "Hel" ] ])
                     (JS.Error "network error"))))
            Sample.greeting EmptyString
            {| ok := true; status := 200;
               body := Some (failing_stream
                               (map chunk_text
                                  [ [ fragment_record (Sample.event_json "Hel")
                                        (Sample.event_value "Hel") "Hel" ] ])
                               (JS.Error "network error"));
               json := inl (JS.Error "body stream already read") |}
            [ [ fragment_record (Sample.event_json "Hel")
                  (Sample.event_value "Hel") "Hel" ] ]
            (JS.Error "network error") _ _ _ _ _ _ _); by_evaluation.
Defined.

(** ** The Send button and the guard *)

Lemma guard_is_sendDisabled (st : State) :
  (String.eqb (JS.trim (input st)) EmptyString
   && match file st with Some _ => false | None => true end)
  || isLoading st
  = sendDisabled st.
Proof.
  unfold sendDisabled. rewrite orb_comm. f_equal. f_equal.
  now destruct (JS.trim (input st)).
Qed.

(** X8.  The Send button is disabled in exactly the states in which the
    handler does nothing: the guard of the handler and the [disabled]
    attribute of the button agree, so a press of an enabled button is
    never dropped and a submission that would be dropped cannot be
    pressed. *)
Theorem send_is_disabled_exactly_when_submitting_does_nothing
  (env : Env) (st : State) :
  sendDisabled st = true
  <-> handleSendMessage env st (start st) = (start st, inr tt).
Proof.
  split.
  - intros Hdisabled. unfold handleSendMessage. cbn [start ui].
    now rewrite guard_is_sendDisabled, Hdisabled.
  - intros Hnothing.
    destruct (sendDisabled st) eqn:Hdisabled; [reflexivity|exfalso].
    assert (Hseen : suspended (fst (handleSendMessage env st (start st))) = [])
      by now rewrite Hnothing.
    rewrite <- guard_is_sendDisabled in Hdisabled.
    apply orb_false_iff in Hdisabled as (Hguard & Hidle).
    destruct (handleSendMessage_cases env st)
      as [E|[(f & err & _ & Hfile & Hparse)|(pdfText & Hacc & Hext)]].
    + unfold handleSendMessage in E. cbn [start ui] in E.
      rewrite Hguard, Hidle in E. cbn [orb] in E.
      destruct (file st) as [f|] eqn:Hfile.
      * destruct (parsePdf env f) as [err|pdfText] eqn:Hparse.
        -- rewrite (handleSendMessage_extraction_failed env st f err
                      Hidle Hfile Hparse) in Hseen. discriminate Hseen.
        -- destruct (handleSendMessage_steady env st pdfText)
             as (_ & more & Hmore & _).
           ++ split; [exact Hidle|]. right. now rewrite Hfile.
           ++ unfold extraction. now rewrite Hfile.
           ++ rewrite Hmore in Hseen. unfold dispatched in Hseen.
              cbn in Hseen. rewrite Hfile in Hseen. discriminate Hseen.
      * rewrite andb_true_r in Hguard. apply String.eqb_neq in Hguard.
        destruct (handleSendMessage_steady env st EmptyString)
          as (_ & more & Hmore & _).
        -- split; [exact Hidle|now left].
        -- unfold extraction. now rewrite Hfile.
        -- rewrite Hmore in Hseen. unfold dispatched in Hseen.
           cbn in Hseen. rewrite Hfile in Hseen. discriminate Hseen.
    + rewrite (handleSendMessage_extraction_failed env st f err
                 Hidle Hfile Hparse) in Hseen. discriminate Hseen.
    + destruct (handleSendMessage_steady env st pdfText Hacc Hext)
        as (_ & more & Hmore & _).
      rewrite Hmore in Hseen. unfold dispatched in Hseen. cbn in Hseen.
      destruct (file st); discriminate Hseen.
Qed.

(** ** Files *)

(** X9.  A file whose text cannot even begin to be extracted stops the
    submission with a message of its own and leaves store, input and
    attachment alone: [PDF.js library is not loaded yet.] while the
    script has not loaded; [Failed to parse PDF.] when the FileReader
    reports an error; [Failed to read file.] when it loads nothing; and,
    when the document does not open, the message of the Error thrown, or
    [Failed to parse PDF.] for a thrown value that is no Error. *)
Theorem extraction_errors_are_shown_by_name
  (env : Env) (st : State) (f : File) :
  isLoading st = false ->
  file st = Some f ->
  let aborted := fun errorMessage =>
    {| messages := messages st; input := input st; file := Some f;
       isLoading := false; error := Some errorMessage |} in
  (pdfjsLib env = None ->
   submit env st = aborted "PDF.js library is not loaded yet.")
  /\ (forall lib,
        pdfjsLib env = Some lib ->
        (readAsArrayBuffer env f = onerror ->
         submit env st = aborted "Failed to parse PDF.")
        /\ (readAsArrayBuffer env f = onload None ->
            submit env st = aborted "Failed to read file.")
        /\ (forall data err,
              readAsArrayBuffer env f = onload (Some data) ->
              getDocument lib data = inl err ->
              submit env st
              = aborted match err with
                        | JS.Error message => message
                        | JS.NotAnError => "Failed to parse PDF."
                        end)).
Proof.
  intros Hidle Hfile aborted.
  assert (Hfailed : forall err,
            parsePdf env f = inl err ->
            submit env st = aborted (message_or err "Failed to parse PDF.")).
  { intros err Hparse. unfold submit.
    now rewrite (handleSendMessage_extraction_failed env st f err
                   Hidle Hfile Hparse). }
  split; [|intros lib Hlib; repeat split].
  - intros Hlib. apply (Hfailed (JS.Error "PDF.js library is not loaded yet.")).
    unfold parsePdf. now rewrite Hlib.
  - intros Hread. apply (Hfailed JS.NotAnError).
    unfold parsePdf. now rewrite Hlib, Hread.
  - intros Hread. apply (Hfailed (JS.Error "Failed to read file.")).
    unfold parsePdf. now rewrite Hlib, Hread.
  - intros data err Hread Hdoc. apply (Hfailed err).
    unfold parsePdf. now rewrite Hlib, Hread, Hdoc.
Qed.

(** X9 on a page whose pdf.js script has not loaded yet. *)
Lemma extraction_errors_are_shown_by_name_witness :
  submit
    {| JSON_parse := Sample.parse;
       Number_toString := fun _ => "0";
       randomUUID := fun n => "uuid-" ++ JS.nat_toString n;
       pdfjsLib := None;
       readAsArrayBuffer := fun _ => onerror;
       fetch := fun _ => Sample.refused |}
    (Sample.attached Sample.letter)
  = {| messages := messages initialState;
       input := "  ";
       file := Some Sample.letter;
       isLoading := false;
       error := Some "PDF.js library is not loaded yet." |}.
Proof.
  refine (proj1
    (extraction_errors_are_shown_by_name
       {| JSON_parse := Sample.parse;
          Number_toString := fun _ => "0";
          randomUUID := fun n => "uuid-" ++ JS.nat_toString n;
          pdfjsLib := None;
          readAsArrayBuffer := fun _ => onerror;
          fetch := fun _ => Sample.refused |}
       (Sample.attached Sample.letter) Sample.letter _ _) _); reflexivity.
Defined.

Section User_message_facts.

Variable env : Env.

(** The message of the user stays first among what a submission adds. *)
Lemma submission_keeps_the_user_message (st : State) (pdfText : string) :
  accepted st ->
  extraction env st = inr pdfText ->
  (forall k, 1 <= k ->
     ~ In (randomUUID env k) (map id (messages st ++ [userMessage env st]))) ->
  exists rest,
    messages (submit env st) = (messages st ++ userMessage env st :: rest)%list.
Proof.
  intros Hacc Hext Hfresh.
  destruct (submission_outcome env st pdfText Hacc Hext)
    as (s1 & (_ & _ & _ & olds & added & Hm & Hslots & _) & Hui & _).
  cbn [dispatched ui awaiting_response messages] in Hslots.
  rewrite (same_slot_unchanged env 1 _ _ Hslots Hfresh) in Hm.
  unfold submit. rewrite Hui. cbn [messages]. rewrite Hm, <- !app_assoc.
  eexists. reflexivity.
Qed.

End User_message_facts.

(** X10.  When text is typed and a file is attached whose extracted text
    is not empty, the message of the user in the store holds the typed
    text only, trimmed, while the text posted for the turn is the typed
    text, a blank line, a header that names the file, and the extracted
    text. *)
Theorem typed_text_is_shown_and_the_document_is_sent_along
  (env : Env) (st : State) (f : File) (pdfText : string) :
  isLoading st = false ->
  JS.trim (input st) <> EmptyString ->
  file st = Some f ->
  parsePdf env f = inr pdfText ->
  pdfText <> EmptyString ->
  (forall k, 1 <= k ->
     ~ In (randomUUID env k) (map id (messages st ++ [userMessage env st]))) ->
  (exists rest,
     messages (submit env st)
     = (messages st
        ++ {| id := randomUUID env 0; role := user;
              content := JS.trim (input st) |} :: rest)%list)
  /\ posted (fst (handleSendMessage env st (start st)))
     = [chatHistory (messages st)
          (JS.trim (input st)
           ++ String JS.LF (String JS.LF "--- Content from ") ++ name f
           ++ " ---" ++ String JS.LF pdfText)].
Proof.
  intros Hidle Htext Hfile Hparse Hsome Hfresh.
  assert (Hacc : accepted st) by (split; [exact Hidle|now left]).
  assert (Hext : extraction env st = inr pdfText).
  { unfold extraction. now rewrite Hfile. }
  split.
  - destruct (submission_keeps_the_user_message env st pdfText Hacc Hext Hfresh)
      as (rest & Hm).
    exists rest. rewrite Hm. unfold userMessage, userMessage_content, JS.or_string.
    now rewrite (truthy_string_true _ Htext).
  - destruct (handleSendMessage_steady env st pdfText Hacc Hext) as (-> & _).
    unfold apiRequestText. now rewrite (truthy_string_true _ Hsome), Hfile.
Qed.

(** X10 on the sample letter sent with a question. *)
Lemma typed_text_is_shown_and_the_document_is_sent_along_witness :
  let st := {| messages := messages initialState;
               input := " What does it say? ";
               file := Some Sample.letter;
               isLoading := false; error := None |} in
  posted (fst (handleSendMessage (Sample.env Sample.refused) st (start st)))
  = [chatHistory (messages initialState)
       ("What does it say?" ++ Sample.NL ++ Sample.NL
        ++ "--- Content from letter.pdf ---" ++ Sample.NL
        ++ "Dear reader," ++ Sample.NL ++ "bye." ++ Sample.NL)].
Proof.
  refine (proj2
    (typed_text_is_shown_and_the_document_is_sent_along
       (Sample.env Sample.refused)
       {| messages := messages initialState;
          input := " What does it say? ";
          file := Some Sample.letter;
          isLoading := false; error := None |}
       Sample.letter
       ("Dear reader," ++ Sample.NL ++ "bye." ++ Sample.NL) _ _ _ _ _ _));
    try reflexivity; try (vm_compute; discriminate).
  intros k Hk Hin.
  change (In (randomUUID (Sample.env Sample.refused) k)
            ["1"; randomUUID (Sample.env Sample.refused) 0]) in Hin.
  destruct Hin as [E|[E|[]]].
  - discriminate E.
  - apply sample_randomUUID_inj in E. lia.
Defined.

(** ** Carriage returns *)

Lemma trimEnd_snoc_space (s : string) (c : ascii) :
  JS.isWhiteSpace c = true ->
  JS.trimEnd (s ++ String c EmptyString) = JS.trimEnd s.
Proof.
  intros Hc. induction s as [|x s IH]; cbn.
  - now rewrite Hc.
  - now rewrite IH.
Qed.

Lemma trimStart_snoc_space (s : string) (c : ascii) :
  JS.isWhiteSpace c = true ->
  JS.trimStart (s ++ String c EmptyString)
  = match JS.trimStart s with
    | EmptyString => EmptyString
    | t => t ++ String c EmptyString
    end.
Proof.
  intros Hc. induction s as [|x s IH]; cbn.
  - now rewrite Hc.
  - destruct (JS.isWhiteSpace x); [exact IH|reflexivity].
Qed.

(** White space at the end of a string is trimmed away. *)
Lemma trim_snoc_space (s : string) (c : ascii) :
  JS.isWhiteSpace c = true ->
  JS.trim (s ++ String c EmptyString) = JS.trim s.
Proof.
  intros Hc. unfold JS.trim. rewrite (trimStart_snoc_space s c Hc).
  destruct (JS.trimStart s) as [|x t]; [reflexivity|].
  apply (trimEnd_snoc_space (String x t) c Hc).
Qed.

Lemma startsWith_with_CR (line : string) :
  JS.startsWith (with_CR line) "data: " = JS.startsWith line "data: ".
Proof.
  unfold JS.startsWith, with_CR.
  do 6 (destruct line as [|? line]; [reflexivity|];
        cbn [String.prefix append];
        match goal with
        | |- context [ascii_dec ?a ?b] => destruct (ascii_dec a b)
        end; [|reflexivity]).
  now destruct line.
Qed.

Lemma substring_with_CR (line : string) :
  JS.startsWith line "data: " = true ->
  JS.substring_from 6 (with_CR line) = with_CR (JS.substring_from 6 line).
Proof.
  unfold JS.startsWith, with_CR.
  do 6 (destruct line as [|? line]; [discriminate|];
        cbn [String.prefix append JS.substring_from];
        match goal with
        | |- context [ascii_dec ?a ?b] => destruct (ascii_dec a b)
        end; [|discriminate]).
  reflexivity.
Qed.

Lemma one_line_with_CR (line : string) :
  one_line (with_CR line) = one_line line.
Proof.
  unfold with_CR. induction line as [|c line IH]; cbn; [reflexivity|].
  now rewrite IH.
Qed.

Section Carriage_return_facts.

Variable env : Env.

Lemma line_textPart_with_CR (line : string) :
  line_textPart env (with_CR line) = line_textPart env line.
Proof.
  unfold line_textPart. rewrite startsWith_with_CR.
  destruct (JS.startsWith line "data: ") eqn:Hdata; [|reflexivity].
  rewrite (substring_with_CR line Hdata). unfold with_CR.
  now rewrite trim_snoc_space.
Qed.

Lemma process_lines_with_CR (lines : list string) :
  forall l s,
  process_lines env (map with_CR lines) l s = process_lines env lines l s.
Proof.
  induction lines as [|line lines IH]; intros l s; cbn; [reflexivity|].
  unfold bind. rewrite !process_line_textPart, line_textPart_with_CR.
  destruct (line_textPart env line) as [|v _]; [apply IH|].
  destruct (apply_textPart env v l s) as [s' [err|l']]; [reflexivity|apply IH].
Qed.

End Carriage_return_facts.

Lemma split_LF_lines (ending : string -> string) (lines : list string) :
  (forall line, one_line (ending line) = one_line line) ->
  Forall (fun line => one_line line = true) lines ->
  JS.split_LF
    (concat_strings (map (fun line => ending line ++ String JS.LF EmptyString) lines))
  = (map ending lines ++ [EmptyString])%list.
Proof.
  intros Hending. induction 1 as [|line lines Hline _ IH]; cbn; [reflexivity|].
  rewrite append_assoc. cbn.
  rewrite split_LF_line, IH; [reflexivity|]. now rewrite Hending.
Qed.

(** X11.  A response framed with CR LF is decoded like the same response
    framed with LF: for a chunk of whole lines, a carriage return before
    each line feed changes nothing of what the lines do to the store and
    to the locals of the loop. *)
Theorem carriage_returns_before_line_feeds_change_nothing
  (env : Env) (lines : list string) (l : Locals) (s : Sys) :
  Forall (fun line => one_line line = true) lines ->
  process_lines env
    (JS.split_LF
       (concat_strings
          (map (fun line => with_CR line ++ String JS.LF EmptyString) lines)))
    l s
  = process_lines env
      (JS.split_LF
         (concat_strings (map (fun line => line ++ String JS.LF EmptyString) lines)))
      l s.
Proof.
  intros Hlines.
  rewrite (split_LF_lines with_CR lines one_line_with_CR Hlines).
  rewrite (split_LF_lines (fun line => line) lines (fun _ => eq_refl) Hlines).
  rewrite map_id, !process_lines_app, process_lines_with_CR.
  destruct (process_lines env lines l s) as [s' [err|l']]; reflexivity.
Qed.

(** X11 on the two sample events. *)
Lemma carriage_returns_before_line_feeds_change_nothing_witness :
  let lines :=
    [ "data: " ++ Sample.event_json "Hel"; EmptyString;
      "data: " ++ Sample.event_json "lo"; EmptyString ] in
  let l := {| aiResponseContent := EmptyString; assistantMessageId := None |} in
  process_lines (Sample.env Sample.refused)
    (JS.split_LF
       (concat_strings
          (map (fun line => with_CR line ++ String JS.LF EmptyString) lines)))
    l (start Sample.greeting)
  = process_lines (Sample.env Sample.refused)
      (JS.split_LF
         (concat_strings (map (fun line => line ++ String JS.LF EmptyString) lines)))
      l (start Sample.greeting).
Proof.
  refine (carriage_returns_before_line_feeds_change_nothing
            (Sample.env Sample.refused)
            [ "data: " ++ Sample.event_json "Hel"; EmptyString;
              "data: " ++ Sample.event_json "lo"; EmptyString ]
            {| aiResponseContent := EmptyString; assistantMessageId := None |}
            (start Sample.greeting) _).
  repeat constructor.
Defined.

(** ** One exchange after another *)

(** X12.  The text of a document is sent once only.  After a file has
    been sent with nothing typed and the reply has streamed in, the next
    request replays that turn as the user entry [File uploaded:] and the
    name of the file, followed by the reply as a model entry and by the
    newly typed text: the extracted text is not part of the history. *)
Theorem document_text_is_sent_once_only
  (env env' : Env) (st : State) (f : File) (pdfText : string)
  (response : Response) (chunks : list (list Line)) (typed : string) :
  isLoading st = false ->
  JS.trim (input st) = EmptyString ->
  file st = Some f ->
  parsePdf env f = inr pdfText ->
  fetch env (chatHistory (messages st) (apiRequestText st pdfText)) = inr response ->
  ok response = true ->
  body response = Some (stream_of chunks) ->
  Forall (Forall (line_wf env)) chunks ->
  stream_fragments chunks <> [] ->
  fresh_id (randomUUID env 1) (messages st ++ [userMessage env st]) ->
  JS.trim typed <> EmptyString ->
  let later := handle (text_typed typed) (submit env st) in
  posted (fst (handleSendMessage env' later (start later)))
  = [chatHistory
       (messages st
        ++ [ {| id := randomUUID env 0; role := user;
                content := "File uploaded: " ++ name f |};
             {| id := randomUUID env 1; role := assistant;
                content := concat_strings (stream_fragments chunks) |} ])
       (JS.trim typed)].
Proof.
  intros Hidle Hblank Hfile Hparse Hfetch Hok Hbody Hwf Hsome Hfresh Htyped later.
  assert (Hacc : accepted st).
  { split; [exact Hidle|]. right. now rewrite Hfile. }
  assert (Hext : extraction env st = inr pdfText).
  { unfold extraction. now rewrite Hfile. }
  destruct (handleSendMessage_streamed env st pdfText response (stream_of chunks)
              Hacc Hext Hfetch Hok Hbody (fun _ => Hfresh)) as (Hui & _).
  assert (Hend : stream_end (stream_of chunks) = inr tt)
    by apply stream_end_of_texts.
  rewrite (stream_textParts_wf env chunks Hwf), Hend,
    (assistant_turn_Str env _ _ Hsome), app_nil_r in Hui.
  assert (Hlater : later
                   = {| messages :=
                          (messages st
                           ++ [ {| id := randomUUID env 0; role := user;
                                   content := "File uploaded: " ++ name f |};
                                {| id := randomUUID env 1; role := assistant;
                                   content := concat_strings (stream_fragments chunks) |} ])%list;
                        input := typed; file := None;
                        isLoading := false; error := None |}).
  { subst later. unfold handle, submit. cbn. rewrite Hui. cbn.
    unfold userMessage, userMessage_content. now rewrite Hblank, Hfile. }
  destruct (handleSendMessage_steady env' later EmptyString) as (Hposted & _).
  - rewrite Hlater. split; [reflexivity|now left].
  - now rewrite Hlater.
  - rewrite Hposted, Hlater. reflexivity.
Qed.

(** X12 on the sample letter, followed by a question. *)
Lemma document_text_is_sent_once_only_witness :
  let later :=
    handle (text_typed "and?")
      (submit (Sample.env (Sample.streaming (stream_of Sample.hello_chunks)))
         (Sample.attached Sample.letter)) in
  posted (fst (handleSendMessage (Sample.env Sample.refused) later (start later)))
  = [chatHistory
       (messages initialState
        ++ [ {| id := "uuid-0"; role := user;
                content := "File uploaded: letter.pdf" |};
             {| id := "uuid-1"; role := assistant; content := "Hello" |} ])
       "and?"].
Proof.
  refine (document_text_is_sent_once_only
            (Sample.env (Sample.streaming (stream_of Sample.hello_chunks)))
            (Sample.env Sample.refused)
            (Sample.attached Sample.letter) Sample.letter
            ("Dear reader," ++ Sample.NL ++ "bye." ++ Sample.NL)
            {| ok := true; status := 200;
               body := Some (stream_of Sample.hello_chunks);
               json := inl (JS.Error "body stream already read") |}
            Sample.hello_chunks "and?" _ _ _ _ _ _ _ _ _ _ _); by_evaluation.
Defined.

(** ** The page between events *)

Lemma submit_at_rest (env : Env) (st : State) :
  isLoading st = false ->
  isLoading (submit env st) = false
  /\ (file (submit env st) = file st \/ file (submit env st) = None).
Proof.
  intros Hidle. unfold submit.
  destruct (handleSendMessage_cases env st)
    as [E|[(f & err & _ & Hfile & Hparse)|(pdfText & Hacc & Hext)]].
  - rewrite E. cbn. split; [exact Hidle|now left].
  - rewrite (handleSendMessage_extraction_failed env st f err Hidle Hfile Hparse).
    cbn. split; [reflexivity|]. left. now rewrite Hfile.
  - destruct (submission_outcome env st pdfText Hacc Hext) as (s1 & _ & Hui & _).
    rewrite Hui. cbn. split; [reflexivity|now right].
Qed.

Lemma handle_at_rest (ev : Event) (st : State) :
  isLoading st = false ->
  pdf_only st ->
  isLoading (handle ev st) = false
  /\ pdf_only (handle ev st)
  /\ exists ids roles,
       map id (messages (handle ev st)) = (map id (messages st) ++ ids)%list
       /\ map role (messages (handle ev st)) = (map role (messages st) ++ roles)%list.
Proof.
  intros Hidle Hpdf.
  assert (Hsame : forall st', messages st' = messages st ->
            exists ids roles,
              map id (messages st') = (map id (messages st) ++ ids)%list
              /\ map role (messages st') = (map role (messages st) ++ roles)%list).
  { intros st' ->. exists [], []. now rewrite !app_nil_r. }
  destruct ev as [selectedFile|value| |env]; cbn [handle].
  - unfold handleFileChange.
    destruct selectedFile as [f|];
      [destruct (String.eqb_spec (type f) "application/pdf") as [Htype|_]|];
      run_handler; repeat split; auto.
  - run_handler. repeat split; auto.
  - run_handler. repeat split; auto.
  - destruct (submit_at_rest env st Hidle) as (Hidle' & Hfile).
    split; [exact Hidle'|]. split.
    + unfold pdf_only in *. destruct Hfile as [-> | ->]; [exact Hpdf|exact I].
    + destruct (submission_ids env st) as (Hids & roles & Hroles).
      eexists _, roles. split; [exact Hids|exact Hroles].
Qed.

(** X13.  Through any sequence of file choices, typing, removals of the
    attachment and submissions, each handled to its end, the page is idle
    between events, a file that is attached is always declared a PDF
    document, and the store only grows: no message is ever removed or
    moved, and none changes its id or its role. *)
Theorem events_keep_the_page_at_rest
  (events : list Event) (st : State) :
  isLoading st = false ->
  pdf_only st ->
  isLoading (run events st) = false
  /\ pdf_only (run events st)
  /\ exists ids roles,
       map id (messages (run events st)) = (map id (messages st) ++ ids)%list
       /\ map role (messages (run events st))
          = (map role (messages st) ++ roles)%list.
Proof.
  revert st. unfold run.
  induction events as [|ev events IH]; intros st Hidle Hpdf; cbn [fold_left].
  - repeat split; auto. exists [], []. now rewrite !app_nil_r.
  - destruct (handle_at_rest ev st Hidle Hpdf)
      as (Hidle' & Hpdf' & ids & roles & Hids & Hroles).
    destruct (IH (handle ev st) Hidle' Hpdf')
      as (Hidle'' & Hpdf'' & ids' & roles' & Hids' & Hroles').
    repeat split; auto.
    exists (ids ++ ids')%list, (roles ++ roles')%list.
    now rewrite Hids', Hroles', Hids, Hroles, !app_assoc.
Qed.

(** X13 on a session: a text file is chosen, then the sample letter,
    a question is typed and sent, and the attachment of a second letter is
    removed again. *)
Lemma events_keep_the_page_at_rest_witness :
  let events :=
    [ file_chosen (Some {| name := "notes.txt"; type := "text/plain" |});
      file_chosen (Some Sample.letter);
      text_typed "What does it say?";
      form_submitted (Sample.env (Sample.streaming (stream_of Sample.hello_chunks)));
      file_chosen (Some Sample.letter);
      attachment_removed ] in
  isLoading (run events initialState) = false
  /\ pdf_only (run events initialState)
  /\ exists ids roles,
       map id (messages (run events initialState))
       = (map id (messages initialState) ++ ids)%list
       /\ map role (messages (run events initialState))
          = (map role (messages initialState) ++ roles)%list.
Proof.
  refine (events_keep_the_page_at_rest
            [ file_chosen (Some {| name := "notes.txt"; type := "text/plain" |});
              file_chosen (Some Sample.letter);
              text_typed "What does it say?";
              form_submitted
                (Sample.env (Sample.streaming (stream_of Sample.hello_chunks)));
              file_chosen (Some Sample.letter);
              attachment_removed ]
            initialState _ _); [reflexivity|exact I].
Defined.

(** X14.  With nothing typed, choosing a file makes the form submittable
    exactly when the file is declared a PDF document.  After any other
    choice, leaving the chooser without a file included, Send is disabled,
    whatever was attached before is detached, and the error asks for a
    valid PDF file.  The store and the input are not touched. *)
Theorem choosing_a_file_enables_send_only_for_a_pdf
  (selectedFile : option File) (st : State) :
  isLoading st = false ->
  JS.trim (input st) = EmptyString ->
  let st' := handle (file_chosen selectedFile) st in
  (sendDisabled st' = false
   <-> exists f, selectedFile = Some f /\ type f = "application/pdf")
  /\ (sendDisabled st' = true ->
      file st' = None /\ error st' = Some "Please select a valid PDF file.")
  /\ messages st' = messages st
  /\ input st' = input st.
Proof.
  intros Hidle Hblank st'. subst st'. unfold handle, handleFileChange, sendDisabled.
  destruct selectedFile as [f|];
    [destruct (String.eqb_spec (type f) "application/pdf") as [Htype|Htype]|];
    cbv beta delta [bind setFile setError setState ret]; cbn - [JS.trim];
    rewrite Hidle, Hblank; cbn; repeat split;
    try discriminate; try reflexivity; eauto.
  - intros (f' & E & Htype'). injection E as <-. contradiction.
  - intros (f' & E & _). discriminate E.
Qed.

(** X14 on a page with the sample letter attached, when the chooser is
    left without a file. *)
Lemma choosing_a_file_enables_send_only_for_a_pdf_witness :
  file (handle (file_chosen None) (Sample.attached Sample.letter)) = None
  /\ error (handle (file_chosen None) (Sample.attached Sample.letter))
     = Some "Please select a valid PDF file.".
Proof.
  refine (proj1 (proj2
    (choosing_a_file_enables_send_only_for_a_pdf None
       (Sample.attached Sample.letter) _ _)) _); reflexivity.
Defined.

(** ** More on the extractor and the decoder *)

Lemma append_not_empty_r (a b : string) :
  b <> EmptyString -> a ++ b <> EmptyString.
Proof. destruct a; [easy|discriminate]. Qed.

(** X15.  A document that opens and whose pages can all be read yields
    the empty text exactly when it has no page: every page adds at least
    its line feed, even a page without any text item.  So for such a
    document with pages and nothing typed, the text posted always has the
    header that names the file. *)
Theorem extracted_text_is_empty_only_without_pages
  (env : Env) (pdfFile : File) (lib : PdfJsLib) (data : list Byte.byte)
  (pdf : PDFDocumentProxy) (fragments : nat -> list string) :
  pdfjsLib env = Some lib ->
  readAsArrayBuffer env pdfFile = onload (Some data) ->
  getDocument lib data = inr pdf ->
  (forall k, 1 <= k <= numPages pdf -> page_yields pdf k (fragments k)) ->
  exists pdfText,
    parsePdf env pdfFile = inr pdfText
    /\ (pdfText = EmptyString <-> numPages pdf = 0)
    /\ (numPages pdf <> 0 ->
        forall st,
          JS.trim (input st) = EmptyString ->
          file st = Some pdfFile ->
          apiRequestText st pdfText
          = String JS.LF (String JS.LF "--- Content from ") ++ name pdfFile
            ++ " ---" ++ String JS.LF pdfText).
Proof.
  intros Hlib Hread Hdoc Hpages.
  assert (Hparse : parsePdf env pdfFile
                   = inr (concat_strings
                            (map (fun k => page_text (fragments k))
                               (seq 1 (numPages pdf))))).
  { unfold parsePdf. rewrite Hlib, Hread, Hdoc.
    rewrite (parsePdf_pages_readable pdf fragments); [reflexivity|].
    intros k Hk. apply Hpages. lia. }
  eexists. split; [exact Hparse|].
  assert (Hempty : concat_strings
                     (map (fun k => page_text (fragments k)) (seq 1 (numPages pdf)))
                   = EmptyString <-> numPages pdf = 0).
  { destruct (numPages pdf) as [|n]; [easy|]. split; [|discriminate].
    cbn [seq map concat_strings]. unfold page_text at 1. intros E.
    exfalso. revert E. rewrite append_assoc.
    apply append_not_empty_r. discriminate. }
  split; [exact Hempty|].
  intros Hsome st Hblank Hfile. unfold apiRequestText.
  rewrite Hblank, Hfile. cbn [file_name].
  rewrite truthy_string_true; [reflexivity|]. now rewrite Hempty.
Qed.

(** X15 on a document of one page that has no text item. *)
Lemma extracted_text_is_empty_only_without_pages_witness :
  exists pdfText,
    parsePdf
      {| JSON_parse := Sample.parse;
         Number_toString := fun _ => "0";
         randomUUID := fun n => "uuid-" ++ JS.nat_toString n;
         pdfjsLib :=
           Some {| getDocument := fun _ =>
                     inr {| numPages := 1;
                            getPage := fun _ =>
                              inr {| getTextContent := inr {| items := [] |} |} |} |};
         readAsArrayBuffer := fun _ => onload (Some []);
         fetch := fun _ => Sample.refused |}
      Sample.letter
    = inr pdfText
    /\ (pdfText = EmptyString <-> 1 = 0).
Proof.
  destruct (extracted_text_is_empty_only_without_pages
              {| JSON_parse := Sample.parse;
                 Number_toString := fun _ => "0";
                 randomUUID := fun n => "uuid-" ++ JS.nat_toString n;
                 pdfjsLib :=
                   Some {| getDocument := fun _ =>
                             inr {| numPages := 1;
                                    getPage := fun _ =>
                                      inr {| getTextContent := inr {| items := [] |} |} |} |};
                 readAsArrayBuffer := fun _ => onload (Some []);
                 fetch := fun _ => Sample.refused |}
              Sample.letter
              {| getDocument := fun _ =>
                   inr {| numPages := 1;
                          getPage := fun _ =>
                            inr {| getTextContent := inr {| items := [] |} |} |} |}
              []
              {| numPages := 1;
                 getPage := fun _ =>
                   inr {| getTextContent := inr {| items := [] |} |} |}
              (fun _ => [])
              eq_refl eq_refl eq_refl
              (fun k _ =>
                 ex_intro _ _
                   (ex_intro _ _ (conj eq_refl (conj eq_refl eq_refl)))))
    as (pdfText & Hparse & Hempty & _).
  exists pdfText. split; [exact Hparse|exact Hempty].
Defined.



Section Draw_facts.

Variable env : Env.

Hypothesis ids_not_empty : forall k, randomUUID env k <> EmptyString.

Lemma apply_textPart_draws (v : JS.Value) (l : Locals) (s : Sys) :
  exists s' l',
    apply_textPart env v l s = (s', inr l')
    /\ uuid_calls s' + draws_left l' <= uuid_calls s + draws_left l.
Proof.
  unfold apply_textPart, draws_left.
  destruct (assistantMessageId l) as [i|];
    [destruct (JS.truthy_string i) eqn:Hi|]; run_handler;
    eexists _, _; (split; [reflexivity|]); cbn;
    rewrite ?Hi, ?(truthy_string_true _ (ids_not_empty _)); lia.
Qed.

Lemma process_lines_draws (lines : list string) :
  forall l s,
  exists s' l',
    process_lines env lines l s = (s', inr l')
    /\ uuid_calls s' + draws_left l' <= uuid_calls s + draws_left l.
Proof.
  induction lines as [|line lines IH]; intros l s; cbn.
  - unfold ret. eexists _, _. split; [reflexivity|lia].
  - unfold bind. rewrite process_line_textPart.
    destruct (line_textPart env line) as [|v _]; [apply IH|].
    destruct (apply_textPart_draws v l s) as (s1 & l1 & -> & H1).
    destruct (IH l1 s1) as (s2 & l2 & -> & H2).
    eexists _, _. split; [reflexivity|lia].
Qed.

Lemma read_loop_draws (reader : ReadableStream) :
  forall l s,
  uuid_calls (fst (read_loop env reader l s)) <= uuid_calls s + draws_left l.
Proof.
  induction reader as [|value rest IH|err]; intros l s; cbn; try lia.
  unfold bind, await. cbv beta iota.
  match goal with
  | |- context [process_lines env ?lines l ?s1] =>
      destruct (process_lines_draws lines l s1) as (s2 & l2 & -> & H2)
  end.
  cbn in H2. specialize (IH l2 s2). lia.
Qed.

Lemma decode_response_draws (response : Response) (s : Sys) :
  uuid_calls (fst (decode_response env response s)) <= uuid_calls s + 1.
Proof.
  unfold decode_response.
  destruct (ok response); [destruct (body response) as [reader|]|].
  - apply (read_loop_draws reader).
  - run_handler. destruct (json response); cbn; lia.
  - run_handler. destruct (json response); cbn; lia.
Qed.

Lemma handleSendMessage_draws (st : State) :
  uuid_calls (fst (handleSendMessage env st (start st))) <= 3.
Proof.
  destruct (handleSendMessage_cases env st)
    as [E|[(f & err & Hidle & Hfile & Hparse)|(pdfText & Hacc & Hext)]].
  - rewrite E. cbn. lia.
  - rewrite (handleSendMessage_extraction_failed env st f err Hidle Hfile Hparse).
    cbn. lia.
  - rewrite (handleSendMessage_accepted env st pdfText Hacc Hext).
    unfold try_finally, try_catch.
    destruct (fetch env _) as [err|response].
    + cbn. lia.
    + pose proof (decode_response_draws response (dispatched env st pdfText)) as H.
      destruct (decode_response env response (dispatched env st pdfText))
        as [s1 [err|[]]]; cbn in *; lia.
Qed.

End Draw_facts.

(** X17.  When [crypto.randomUUID] never returns the empty string, a
    submission adds at most three messages to the store, whatever the
    response holds: the message of the user, at most one reply of the
    assistant, and at most one report of a failure. *)
Theorem submission_adds_at_most_three_messages (env : Env) (st : State) :
  (forall k, randomUUID env k <> EmptyString) ->
  List.length (messages (submit env st)) <= List.length (messages st) + 3.
Proof.
  intros Hids.
  destruct (submission_ids env st) as (E & _).
  apply (f_equal (@List.length string)) in E.
  rewrite length_app, !length_map, length_seq in E.
  pose proof (handleSendMessage_draws env Hids st). unfold submit. lia.
Qed.

(** X17 on the sample submission whose body fails after a fragment. *)
Lemma submission_adds_at_most_three_messages_witness :
  List.length
    (messages
       (submit
          (Sample.env
             (Sample.streaming
                (failing_stream
                   [ "data: " ++ Sample.event_json "Hel" ++ Sample.NL ]
                   (JS.Error "network error"))))
          Sample.greeting))
  <= List.length (messages Sample.greeting) + 3.
Proof.
  apply (submission_adds_at_most_three_messages
           (Sample.env
              (Sample.streaming
                 (failing_stream
                    [ "data: " ++ Sample.event_json "Hel" ++ Sample.NL ]
                    (JS.Error "network error"))))
           Sample.greeting).
  intros k. discriminate.
Defined.
